(** * Daily-bar ingestion pipeline: symbol selection, gap detection, history fill

    A shallow embedding of [filters/filter1.py], [filters/filter2.py],
    [filters/filter3.py] and [http_client.py], and the properties of the
    three pipeline stages.

    Modelling conventions.
    - A [datetime.date] is its proleptic Gregorian ordinal ([date.toordinal()]),
      an integer; [timedelta(days=n)] is the integer [n].  The range limits of
      [datetime.date] (years 1 to 9999) are not modelled.
    - A Python float is a rational number.  The pipeline only carries prices
      and volumes around and compares a liquidity with [0] or with another
      liquidity; it does no arithmetic on them.  NaN and the infinities are
      outside the model.
    - [float(s)] on a string is the parameter [float]; [None] stands for the
      [ValueError] it raises on malformed text.
    - An exception is the outcome [Raised]; a loop that never returns is a
      function with fuel that answers [OutOfFuel] for every amount of fuel. *)

From Stdlib Require Import ZArith QArith Lia Bool.
From stdpp Require Import base option list strings gmap sorting.

Local Open Scope Z_scope.

(** ** Calendar dates *)

Module Calendar.

(** A date is handled through its ordinal. *)
Abbreviation date := Z (only parsing).

(** Ordinal of 1970-01-01, [date(1970, 1, 1).toordinal()]. *)
Definition EPOCH_ORDINAL : Z := 719163.

Definition MS_PER_DAY : Z := 86400000.

Definition is_leap (y : Z) : bool :=
  (y mod 4 =? 0) && (negb (y mod 100 =? 0) || (y mod 400 =? 0)).

Definition days_before_year (y : Z) : Z :=
  let p := y - 1 in p * 365 + p / 4 - p / 100 + p / 400.

Definition days_in_month (y m : Z) : Z :=
  if m =? 2 then (if is_leap y then 29 else 28)
  else if (m =? 4) || (m =? 6) || (m =? 9) || (m =? 11) then 30
  else 31.

Fixpoint days_before_month_aux (y : Z) (k : nat) : Z :=
  match k with
  | O => 0
  | S k' => days_before_month_aux y k' + days_in_month y (Z.of_nat k)
  end.

Definition days_before_month (y m : Z) : Z :=
  days_before_month_aux y (Z.to_nat (m - 1)).

(** [date(y, m, d).toordinal()]. *)
Definition ymd2ord (y m d : Z) : date :=
  days_before_year y + days_before_month y m + d.

(** [date_to_ms] of http_client.py: midnight UTC of the day, in ms. *)
Definition date_to_ms (d : date) : Z := (d - EPOCH_ORDINAL) * MS_PER_DAY.

(** [datetime.fromtimestamp(ms / 1000, tz=timezone.utc).date()]. *)
Definition date_of_ms (ms : Z) : date := ms / MS_PER_DAY + EPOCH_ORDINAL.

End Calendar.

Import Calendar.

(** ** Outcomes of effectful code *)

Inductive outcome (A : Type) : Type :=
| Done (a : A)
| Raised
| OutOfFuel.

Arguments Done {A} a.
Arguments Raised {A}.
Arguments OutOfFuel {A}.

#[global] Instance outcome_ret : MRet outcome := fun A a => Done a.

#[global] Instance outcome_bind : MBind outcome := fun A B k o =>
  match o with
  | Done a => k a
  | Raised => Raised
  | OutOfFuel => OutOfFuel
  end.

(** ** The market-data client (http_client.py) *)

(** A raw kline [[openTimeMs, open, high, low, close, volume, ...]]: the open
    time is a JSON integer, the five prices are JSON strings. *)
Record kline := Kline {
  k_open_time_ms : Z;
  k_open : string;
  k_high : string;
  k_low : string;
  k_close : string;
  k_volume : string
}.

(** What one GET on the klines endpoint gives: [raise_for_status] raises, or
    the decoded JSON array. *)
Inductive response :=
| HttpError
| Page (chunk : list kline).

(** The remote endpoint: the answer may depend on how many requests were made
    before this one, on the ticker and on the window [startTime, endTime]. *)
Definition klines_api := nat -> string -> Z -> Z -> response.

Section Fetch.

Variable api : klines_api.

(** The [while] loop of [fetch_klines_range]; [calls] counts the requests
    made so far, [current_start] and [all_klines] are the loop variables. *)
Fixpoint fetch_klines_loop (fuel : nat) (symbol : string)
    (start_date end_date : date) (calls : nat) (current_start : date)
    (all_klines : list kline) : outcome (list kline * nat) :=
  match fuel with
  | O => OutOfFuel
  | S fuel' =>
      if current_start <=? end_date then
        match api calls symbol (date_to_ms current_start) (date_to_ms end_date) with
        | HttpError => Raised
        | Page [] => Done (all_klines, S calls)
        | Page ((k0 :: _) as chunk) =>
            let all_klines' := all_klines ++ chunk in
            let last_open_time_ms := k_open_time_ms (default k0 (last chunk)) in
            let last_dt := date_of_ms last_open_time_ms in
            let current_start' := last_dt + 1 in
            if current_start' <=? start_date
            then Done (all_klines', S calls)
            else fetch_klines_loop fuel' symbol start_date end_date
                   (S calls) current_start' all_klines'
        end
      else Done (all_klines, calls)
  end.

Definition fetch_klines_range (fuel : nat) (calls : nat) (symbol : string)
    (start_date end_date : date) : outcome (list kline * nat) :=
  fetch_klines_loop fuel symbol start_date end_date calls start_date [].

End Fetch.


(** ** Storage: the two tables *)

(** A dict accepted by insert_daily_data.sql, one row of [daily_data]. *)
Record daily_row := DailyRow {
  row_symbol_id : Z;
  row_date : date;
  row_open : Q;
  row_high : Q;
  row_low : Q;
  row_close : Q;
  row_volume : Q;
  row_last_price_24h : Q;
  row_volume_24h : Q;
  row_high_24h : Q;
  row_low_24h : Q;
  row_liquidity : Q
}.

Record crypto_row := CryptoRow {
  c_id : Z;
  c_symbol : string;
  c_base_asset : string;
  c_quote_asset : string;
  c_is_active : bool
}.

Module Db.

Definition same_key (r r' : daily_row) : bool :=
  (row_symbol_id r =? row_symbol_id r') && (row_date r =? row_date r').

(** Modelled from the spec: insert_daily_data.sql is not part of the
    sources.  The table has the unique key (symbol identity, date) and the
    statement is an upsert: a row with a new key is inserted, a row whose
    key is already stored overwrites the stored row's value columns. *)
Fixpoint upsert_daily (r : daily_row) (tbl : list daily_row) : list daily_row :=
  match tbl with
  | [] => [r]
  | r' :: tbl' =>
      if same_key r r' then r :: tbl' else r' :: upsert_daily r tbl'
  end.

(** [cur.executemany(INSERT_DAILY_DATA_SQL, rows)]. *)
Definition executemany_daily (rows tbl : list daily_row) : list daily_row :=
  fold_left (fun t r => upsert_daily r t) rows tbl.

(** Number of stored rows for one symbol and one date. *)
Definition count_rows (sid : Z) (d : date) (tbl : list daily_row) : nat :=
  length (filter (fun r => row_symbol_id r = sid /\ row_date r = d) tbl).

(** The unique key of [daily_data]. *)
Definition unique_keys (tbl : list daily_row) : Prop :=
  forall sid d, (count_rows sid d tbl <= 1)%nat.

(** Modelled from the spec: select_last_date_symbol.sql is not part of the
    sources; it is the query for the maximum stored date of a symbol, NULL
    when the symbol has no row. *)
Definition select_last_date (sid : Z) (tbl : list daily_row) : option date :=
  fold_left
    (fun acc r =>
       if row_symbol_id r =? sid
       then Some (match acc with
                  | None => row_date r
                  | Some m => Z.max m (row_date r)
                  end)
       else acc)
    tbl None.

(** [UPDATE cryptocurrencies SET is_active = 0]. *)
Definition clear_active (tbl : list crypto_row) : list crypto_row :=
  map (fun r => CryptoRow (c_id r) (c_symbol r) (c_base_asset r)
                  (c_quote_asset r) false) tbl.

Definition next_id (tbl : list crypto_row) : Z :=
  fold_left (fun m r => Z.max m (c_id r)) tbl 0 + 1.

(** Modelled from the spec: upsert_symbol.sql is not part of the sources.
    The table has the unique key ticker; the statement inserts the ticker
    with a new identity, or overwrites the base and quote asset of the
    stored ticker, keeping its identity; in both cases the row becomes
    active. *)
Fixpoint upsert_symbol (symbol base quote : string) (fresh : Z)
    (tbl : list crypto_row) : list crypto_row :=
  match tbl with
  | [] => [CryptoRow fresh symbol base quote true]
  | r :: tbl' =>
      if String.eqb (c_symbol r) symbol
      then CryptoRow (c_id r) symbol base quote true :: tbl'
      else r :: upsert_symbol symbol base quote fresh tbl'
  end.

(** Modelled from the spec: select_by_id_cryptocurrencies.sql is not part
    of the sources; the code passes it a ticker and reads the identity of
    the row it gets. *)
Definition select_by_symbol (symbol : string) (tbl : list crypto_row)
    : option crypto_row :=
  find (fun r => String.eqb (c_symbol r) symbol) tbl.

End Db.

(** ** History Filler (filters/filter3.py) *)

Record task := Task {
  task_symbol_id : Z;
  task_symbol : string;
  task_start_date : date;
  task_end_date : date
}.

(** The UTC calendar date a kline opens on. *)
Definition kline_date (k : kline) : date := date_of_ms (k_open_time_ms k).

(** The rows of a dict are filed under their own date and carry the symbol
    identity they were normalized for. *)
Definition keyed_by_date (sid : Z) (rows : gmap Z daily_row) : Prop :=
  forall d r, rows !! d = Some r -> row_date r = d /\ row_symbol_id r = sid.

Section Filler.

(** Python's [float] on the text of a JSON field. *)
Variable float : string -> option Q.

Definition kline_row (symbol_id : Z) (k : kline) : outcome daily_row :=
  match float (k_open k), float (k_high k), float (k_low k),
        float (k_close k), float (k_volume k) with
  | Some open_price, Some high_price, Some low_price,
    Some close_price, Some volume =>
      Done (DailyRow symbol_id (kline_date k)
              open_price high_price low_price close_price volume
              close_price volume high_price low_price volume)
  | _, _, _, _, _ => Raised
  end.

(** The [for] loop of [normalize_klines].  The dict is keyed by the ISO
    text of the date, which names the date uniquely: the key is the date. *)
Fixpoint normalize_loop (symbol_id : Z) (klines : list kline)
    (rows_by_date : gmap Z daily_row) : outcome (gmap Z daily_row) :=
  match klines with
  | [] => Done rows_by_date
  | k :: klines' =>
      row ← kline_row symbol_id k;
      normalize_loop symbol_id klines' (<[row_date row := row]> rows_by_date)
  end.

Definition normalize_klines (symbol_id : Z) (klines : list kline)
    : outcome (gmap Z daily_row) :=
  normalize_loop symbol_id klines ∅.

Definition synthetic_row (symbol_id : Z) (ds : date) (prev_close : Q) : daily_row :=
  DailyRow symbol_id ds prev_close prev_close prev_close prev_close 0%Q
    prev_close 0%Q prev_close prev_close 0%Q.

(** The [while current <= end_date] loop of [fill_missing_dates]: [current]
    grows by one day per iteration, so the loop runs [days] times, the
    number of days from [current] to [end_date]. *)
Fixpoint fill_loop (symbol_id : Z) (rows_by_date : gmap Z daily_row)
    (days : nat) (current : date) (prev_close : option Q)
    (filled_rows : list daily_row) : list daily_row :=
  match days with
  | O => filled_rows
  | S days' =>
      match rows_by_date !! current with
      | Some row =>
          fill_loop symbol_id rows_by_date days' (current + 1)
            (Some (row_close row)) (filled_rows ++ [row])
      | None =>
          match prev_close with
          | Some pc =>
              fill_loop symbol_id rows_by_date days' (current + 1)
                prev_close (filled_rows ++ [synthetic_row symbol_id current pc])
          | None =>
              fill_loop symbol_id rows_by_date days' (current + 1)
                prev_close filled_rows
          end
      end
  end.

Definition fill_missing_dates (symbol_id : Z) (start_date end_date : date)
    (rows_by_date : gmap Z daily_row) : list daily_row :=
  fill_loop symbol_id rows_by_date (Z.to_nat (end_date - start_date + 1))
    start_date None [].

Variable api : klines_api.

(** The body of the [for task in tasks_iter] loop.  The first component is
    the [daily_data] table afterwards, whatever the outcome; on [Done] the
    second is the number of requests made so far. *)
Definition fill_task (fuel : nat) (t : task) (calls : nat)
    (tbl : list daily_row) : list daily_row * outcome nat :=
  match fetch_klines_range api fuel calls (task_symbol t)
          (task_start_date t) (task_end_date t) with
  | Done (klines, calls') =>
      match normalize_klines (task_symbol_id t) klines with
      | Done rows_by_date =>
          let rows_to_store :=
            fill_missing_dates (task_symbol_id t) (task_start_date t)
              (task_end_date t) rows_by_date in
          match rows_to_store with
          | [] => (tbl, Done calls')
          | _ :: _ => (Db.executemany_daily rows_to_store tbl, Done calls')
          end
      | Raised => (tbl, Raised)
      | OutOfFuel => (tbl, OutOfFuel)
      end
  | Raised => (tbl, Raised)
  | OutOfFuel => (tbl, OutOfFuel)
  end.

Fixpoint filter_3_fill_data (fuel : nat) (tasks : list task) (calls : nat)
    (tbl : list daily_row) : list daily_row * outcome nat :=
  match tasks with
  | [] => (tbl, Done calls)
  | t :: tasks' =>
      match fill_task fuel t calls tbl with
      | (tbl', Done calls') => filter_3_fill_data fuel tasks' calls' tbl'
      | failed => failed
      end
  end.

End Filler.

(** ** Symbol Selector (filters/filter1.py) and configuration (config.py) *)

(** One object of [exchangeInfo]'s ["symbols"] array.  [status] and
    [isSpotTradingAllowed] are read with [dict.get]: they may be absent. *)
Record symbol_info := SymbolInfo {
  si_symbol : string;
  si_status : option string;
  si_isSpotTradingAllowed : option bool;
  si_baseAsset : string;
  si_quoteAsset : string
}.

(** One object of the 24h statistics; [quoteVolume] is read with [dict.get]. *)
Record ticker := Ticker {
  t_symbol : string;
  t_quoteVolume : option string
}.

(** The dict built by [normalize_symbol]; the key ["symbol_id"] is added once
    the symbol is stored. *)
Record sym := Sym {
  sym_symbol : string;
  sym_base_asset : string;
  sym_quote_asset : string;
  sym_liquidity_metric : Q;
  sym_symbol_id : option Z
}.

Inductive api_result (A : Type) : Type :=
| ApiOk (a : A)
| ApiFail.

Arguments ApiOk {A} a.
Arguments ApiFail {A}.

Module Config.

Definition STABLE_QUOTES : gset string :=
  list_to_set ["USDT"; "USDC"; "FDUSD"; "BUSD"; "EUR"; "BTC"; "ETH"; "BNB"].

Definition TOP_N_SYMBOLS : Z := 1000.
Definition YEARS_OF_HISTORY : Z := 10.

End Config.

(** [l[:n]] of Python: a negative [n] counts from the end. *)
Definition py_slice_to {A : Type} (n : Z) (l : list A) : list A :=
  if 0 <=? n then take (Z.to_nat n) l
  else take (Z.to_nat (Z.of_nat (length l) + n)) l.

Section Selector.

Variable float : string -> option Q.

(** [float(t.get("quoteVolume", "0"))] with its [except ValueError]; the
    default text ["0"] parses to [0.0]. *)
Definition quote_volume (t : ticker) : Q :=
  match t_quoteVolume t with
  | None => 0%Q
  | Some text =>
      match float text with
      | Some qv => qv
      | None => 0%Q
      end
  end.

Definition build_liquidity_map (tickers : list ticker) : gmap string Q :=
  fold_left (fun liq t => <[t_symbol t := quote_volume t]> liq) tickers ∅.

Definition is_delisted (info : symbol_info) : bool :=
  if negb (bool_decide (si_status info = Some "TRADING")) then true
  else if bool_decide (si_isSpotTradingAllowed info = Some false) then true
  else false.

Definition has_unstable_quote (info : symbol_info) : bool :=
  bool_decide (si_quoteAsset info ∉ Config.STABLE_QUOTES).

Definition normalize_symbol (info : symbol_info) (liquidity_map : gmap string Q) : sym :=
  Sym (si_symbol info) (si_baseAsset info) (si_quoteAsset info)
    (default 0%Q (liquidity_map !! si_symbol info)) None.

(** The candidate-building [for info in symbol_infos] loop. *)
Fixpoint build_candidates (symbol_infos : list symbol_info)
    (liquidity_map : gmap string Q) (candidates : list sym) : list sym :=
  match symbol_infos with
  | [] => candidates
  | info :: infos' =>
      if is_delisted info then build_candidates infos' liquidity_map candidates
      else if has_unstable_quote info
      then build_candidates infos' liquidity_map candidates
      else
        let s := normalize_symbol info liquidity_map in
        if Qle_bool (sym_liquidity_metric s) 0
        then build_candidates infos' liquidity_map candidates
        else build_candidates infos' liquidity_map (candidates ++ [s])
  end.

(** [candidates.sort(key=liquidity_metric, reverse=True)]: Python's sort is
    stable, also with [reverse=True]; a stable sort into descending key
    order is an insertion sort that puts an element before the first one
    whose key is not greater. *)
Fixpoint insert_desc (x : sym) (l : list sym) : list sym :=
  match l with
  | [] => [x]
  | y :: l' =>
      if Qle_bool (sym_liquidity_metric y) (sym_liquidity_metric x)
      then x :: l
      else y :: insert_desc x l'
  end.

Definition sort_by_liquidity (l : list sym) : list sym :=
  foldr insert_desc [] l.

Definition top_active (symbol_infos : list symbol_info) (tickers : list ticker)
    (max_symbols : Z) : list sym :=
  let liquidity_map := build_liquidity_map tickers in
  let candidates := build_candidates symbol_infos liquidity_map [] in
  py_slice_to max_symbols (sort_by_liquidity candidates).

(** The upsert loop over [top_active], on the uncommitted table. *)
Fixpoint upsert_top (top : list sym) (cur : list crypto_row)
    (stored : list sym) : outcome (list crypto_row * list sym) :=
  match top with
  | [] => Done (cur, stored)
  | s :: top' =>
      let cur' :=
        Db.upsert_symbol (sym_symbol s) (sym_base_asset s) (sym_quote_asset s)
          (Db.next_id cur) cur in
      match Db.select_by_symbol (sym_symbol s) cur' with
      | None => Raised
      | Some row =>
          upsert_top top' cur'
            (stored ++ [Sym (sym_symbol s) (sym_base_asset s) (sym_quote_asset s)
                          (sym_liquidity_metric s) (Some (c_id row))])
      end
  end.

(** [filter_1_get_symbols], run to exhaustion as [main.py] does.  The two
    responses are what [fetch_spot_symbols] and [fetch_24h_tickers] give
    ([ApiFail]: the call raises).  The first component of the result is the
    committed [cryptocurrencies] table afterwards, the second the yielded
    symbols. *)
Definition filter_1_get_symbols (symbols_resp : api_result (list symbol_info))
    (tickers_resp : api_result (list ticker)) (max_symbols : option Z)
    (tbl : list crypto_row) : list crypto_row * outcome (list sym) :=
  let max_symbols := default Config.TOP_N_SYMBOLS max_symbols in
  match symbols_resp with
  | ApiFail => (tbl, Raised)
  | ApiOk symbol_infos =>
      match tickers_resp with
      | ApiFail => (tbl, Raised)
      | ApiOk tickers =>
          match top_active symbol_infos tickers max_symbols with
          | [] => (tbl, Done [])
          | (_ :: _) as top =>
              match upsert_top top (Db.clear_active tbl) [] with
              | Done (cur, stored) => (cur, Done stored)
              | Raised => (tbl, Raised)
              | OutOfFuel => (tbl, OutOfFuel)
              end
          end
      end
  end.

End Selector.

(** ** Gap Detector (filters/filter2.py) *)

(** The body of the [for sym in symbols_iter] loop: the task yielded for one
    symbol, if any.  [today] is what [date.today()] gives. *)
Definition check_dates_step (today : date) (tbl : list daily_row) (s : sym)
    : outcome (option task) :=
  match sym_symbol_id s with
  | None => Raised
  | Some symbol_id =>
      let '(start_date, end_date) :=
        match Db.select_last_date symbol_id tbl with
        | None => (today - 365 * Config.YEARS_OF_HISTORY, today)
        | Some last_date => (last_date + 1, today)
        end in
      if start_date <=? end_date
      then Done (Some (Task symbol_id (sym_symbol s) start_date end_date))
      else Done None
  end.

(** [filter_2_check_dates], run to exhaustion; [clock i] is the value of
    [date.today()] while the symbol at position [i] is handled. *)
Fixpoint filter_2_check_dates (clock : nat -> date) (i : nat)
    (symbols : list sym) (tbl : list daily_row) : outcome (list task) :=
  match symbols with
  | [] => Done []
  | s :: symbols' =>
      yielded ← check_dates_step (clock i) tbl s;
      tasks ← filter_2_check_dates clock (S i) symbols' tbl;
      mret (match yielded with
            | Some t => t :: tasks
            | None => tasks
            end)
  end.

(** The gap-fill rule for one date [d] of the walk over
    [start_date .. end_date]: what the rows of [filled] dated [d] are, given
    the normalized bars [rows]. *)
Definition flat_bar (sid : Z) (d : date) (c : Q) (row : daily_row) : Prop :=
  row_symbol_id row = sid /\ row_date row = d /\ row_volume row = 0%Q /\
  row_open row = c /\ row_high row = c /\ row_low row = c /\ row_close row = c.

Definition gap_fill_rule (sid : Z) (start_date : date)
    (rows : gmap Z daily_row) (filled : list daily_row) (d : date) : Prop :=
  let at_d := filter (fun r => row_date r = d) filled in
  match rows !! d with
  | Some bar => at_d = [bar]
  | None =>
      (forall d0 bar0,
         start_date <= d0 < d -> rows !! d0 = Some bar0 ->
         (forall d1, d0 < d1 < d -> rows !! d1 = None) ->
         exists row, at_d = [row] /\ flat_bar sid d (row_close bar0) row) /\
      ((forall d0, start_date <= d0 < d -> rows !! d0 = None) -> at_d = [])
  end.

(** An endpoint that answers every request with the same single candle,
    opening at midnight of 1970-01-01. *)
Definition echo_candle : kline :=
  Kline 0 "1" "1" "1" "1" "1".

Definition echo_api : klines_api := fun _ _ _ _ => Page [echo_candle].


(** Two candles, for the first and the third day of 1970. *)
Definition two_bar_klines : list kline :=
  [Kline (date_to_ms EPOCH_ORDINAL) "1" "1" "1" "1" "1";
   Kline (date_to_ms (EPOCH_ORDINAL + 2)) "1" "1" "1" "1" "1"].

(** Two candles for the same day, as overlapping pages give. *)
Definition repeated_klines : list kline :=
  [Kline (date_to_ms EPOCH_ORDINAL) "1" "1" "1" "1" "1";
   Kline (date_to_ms EPOCH_ORDINAL) "2" "2" "2" "2" "2"].

(** A [float] that reads one-digit texts. *)
Definition digit_float (s : string) : option Q :=
  if String.eqb s "1" then Some 1%Q
  else if String.eqb s "2" then Some 2%Q
  else None.

(** What C10 says of the dict [rows] normalized from [klines]. *)
Definition last_kline_wins (float : string -> option Q) (sid : Z)
    (klines : list kline) (rows : gmap Z daily_row) : Prop :=
  (forall d,
     match last (filter (fun k => kline_date k = d) klines) with
     | Some k => exists r, kline_row float sid k = Done r /\ rows !! d = Some r
     | None => rows !! d = None
     end) /\
  (forall d1 d2 r1 r2,
     rows !! d1 = Some r1 -> rows !! d2 = Some r2 ->
     row_date r1 = row_date r2 -> d1 = d2).


(** An endpoint whose first answer is one candle for 1970-01-02 and whose
    later answers are empty pages. *)
Definition late_api : klines_api := fun calls _ _ _ =>
  match calls with
  | O => Page [Kline (date_to_ms (EPOCH_ORDINAL + 1)) "1" "1" "1" "2" "1"]
  | S _ => Page []
  end.

(** An endpoint whose first answer is one candle for 1970-01-01 and whose
    second answer is an HTTP error. *)
Definition failing_api : klines_api := fun calls _ _ _ =>
  match calls with
  | O => Page [Kline (date_to_ms EPOCH_ORDINAL) "1" "1" "1" "2" "1"]
  | S _ => HttpError
  end.

(** What holds of the table [tbl'] left by a completed task over
    [start_date .. end_date] that fetched [klines], for the date [d]. *)
Definition covered_from_first_candle (sid : Z) (start_date : date)
    (klines : list kline) (tbl tbl' : list daily_row) (d : date) : Prop :=
  (Db.count_rows sid d tbl' <= 1)%nat /\
  ((exists k, k ∈ klines /\ start_date <= kline_date k <= d) ->
   Db.count_rows sid d tbl' = 1%nat) /\
  ((forall k, k ∈ klines -> ~ start_date <= kline_date k <= d) ->
   Db.count_rows sid d tbl' = Db.count_rows sid d tbl).


(** A task for the first three days of 1970. *)
Definition early_task : task :=
  Task 1 "BTCUSDT" EPOCH_ORDINAL (EPOCH_ORDINAL + 2).

(** One stored row of another symbol. *)
Definition other_row : daily_row :=
  DailyRow 2 EPOCH_ORDINAL 5 5 5 5 5 5 5 5 5 5.


(** The symbol has no stored row; [d] is the greatest stored date of the
    symbol. *)
Definition no_stored_date (sid : Z) (tbl : list daily_row) : Prop :=
  forall r, r ∈ tbl -> row_symbol_id r <> sid.

Definition max_stored_date (sid : Z) (tbl : list daily_row) (d : date) : Prop :=
  (exists r, r ∈ tbl /\ row_symbol_id r = sid /\ row_date r = d) /\
  (forall r, r ∈ tbl -> row_symbol_id r = sid -> row_date r <= d).

(** What C6 says of the Gap Detector, for the symbol [s] with identity [sid]
    and for a run over any list of symbols. *)
Definition gap_detector_rule (today : date) (tbl : list daily_row) (s : sym)
    (sid : Z) : Prop :=
  (no_stored_date sid tbl ->
   check_dates_step today tbl s =
   Done (Some (Task sid (sym_symbol s)
                 (today - 365 * Config.YEARS_OF_HISTORY) today))) /\
  (forall d, max_stored_date sid tbl d ->
     check_dates_step today tbl s =
     Done (if d + 1 <=? today
           then Some (Task sid (sym_symbol s) (d + 1) today)
           else None)) /\
  (forall t, check_dates_step today tbl s = Done (Some t) ->
     task_start_date t <= task_end_date t) /\
  (max_stored_date sid tbl (ymd2ord 2024 1 10) ->
   ymd2ord 2024 1 11 <= today ->
   check_dates_step today tbl s =
   Done (Some (Task sid (sym_symbol s) (ymd2ord 2024 1 11) today))) /\
  (forall clock i symbols tasks,
     filter_2_check_dates clock i symbols tbl = Done tasks ->
     (length tasks <= length symbols)%nat /\
     Forall (fun t => task_start_date t <= task_end_date t) tasks).

Definition stored_symbol : sym := Sym "BTCUSDT" "BTC" "USDT" 100 (Some 1).

Definition stored_until_jan_10 : list daily_row :=
  [DailyRow 1 (ymd2ord 2024 1 9) 5 5 5 5 5 5 5 5 5 5;
   DailyRow 1 (ymd2ord 2024 1 10) 5 5 5 5 5 5 5 5 5 5].


#[global] Instance Qle_decision (x y : Q) : Decision (x <= y)%Q :=
  match Qlt_le_dec y x with
  | left Hlt => right (Qlt_not_le y x Hlt)
  | right Hle => left Hle
  end.

(** The four reasons for which the Symbol Selector drops an instrument. *)
Definition excluded (liquidity_map : gmap string Q) (info : symbol_info) : Prop :=
  si_status info <> Some "TRADING" \/
  si_isSpotTradingAllowed info = Some false \/
  si_quoteAsset info ∉ Config.STABLE_QUOTES \/
  (default 0%Q (liquidity_map !! si_symbol info) <= 0)%Q.

#[global] Instance excluded_decision liquidity_map info :
  Decision (excluded liquidity_map info).
Proof. unfold excluded. apply _. Defined.

(** Descending order of liquidity. *)
Definition by_liquidity_desc (a b : sym) : Prop :=
  (sym_liquidity_metric b <= sym_liquidity_metric a)%Q.

(** [out] is [s] with its storage identity resolved. *)
Definition resolved (s out : sym) : Prop :=
  sym_symbol out = sym_symbol s /\
  sym_base_asset out = sym_base_asset s /\
  sym_quote_asset out = sym_quote_asset s /\
  sym_liquidity_metric out = sym_liquidity_metric s /\
  is_Some (sym_symbol_id out).

(** A [float] that reads the texts ["100"] and ["50"]. *)
Definition volume_float (s : string) : option Q :=
  if String.eqb s "100" then Some 100%Q
  else if String.eqb s "50" then Some 50%Q
  else None.

Definition three_infos : list symbol_info :=
  [SymbolInfo "AAAUSDT" (Some "TRADING") (Some true) "AAA" "USDT";
   SymbolInfo "BBBUSDT" (Some "TRADING") (Some true) "BBB" "USDT";
   SymbolInfo "CCCUSDT" (Some "TRADING") (Some true) "CCC" "USDT"].

Definition three_tickers : list ticker :=
  [Ticker "AAAUSDT" (Some "100");
   Ticker "BBBUSDT" (Some "50");
   Ticker "CCCUSDT" (Some "100")].

(** What C7 says of a run of the selector with budget [n]. *)
Definition ranked_selection (float : string -> option Q)
    (infos : list symbol_info) (tickers : list ticker) (n : Z)
    (tbl : list crypto_row) : Prop :=
  let candidates := build_candidates infos (build_liquidity_map float tickers) [] in
  let top := top_active float infos tickers n in
  exists ranked,
    ranked ≡ₚ candidates /\
    StronglySorted by_liquidity_desc ranked /\
    top = take (Z.to_nat n) ranked /\
    (forall a b, a ∈ top -> b ∈ drop (Z.to_nat n) ranked -> by_liquidity_desc a b) /\
    exists tbl' out,
      filter_1_get_symbols float (ApiOk infos) (ApiOk tickers) (Some n) tbl
      = (tbl', Done out) /\
      Forall2 resolved top out.

Definition ranking_example : Prop :=
  (filter_1_get_symbols volume_float (ApiOk three_infos) (ApiOk three_tickers)
     (Some 2) []).2
  = Done [Sym "AAAUSDT" "AAA" "USDT" 100 (Some 1);
          Sym "CCCUSDT" "CCC" "USDT" 100 (Some 2)].

(** A stored table with one active symbol, and a metadata answer whose only
    instrument is not trading. *)
Definition one_active : list crypto_row :=
  [CryptoRow 1 "BTCUSDT" "BTC" "USDT" true].

Definition halted_infos : list symbol_info :=
  [SymbolInfo "AAAUSDT" (Some "BREAK") (Some true) "AAA" "USDT"].


(** An endpoint that never answers a window with a page ending before the
    window's start. *)
Definition progressing (api : klines_api) (symbol : string) (end_date : date)
    : Prop :=
  forall calls cur chunk k,
    api calls symbol (date_to_ms cur) (date_to_ms end_date) = Page chunk ->
    last chunk = Some k -> cur <= kline_date k.


(** An endpoint that answers a window with the one candle of the window's
    first day. *)
Definition daily_api : klines_api := fun _ _ start_ms end_ms =>
  if start_ms <=? end_ms then Page [Kline start_ms "1" "1" "1" "2" "1"]
  else Page [].

(** The kline [k] was part of an answer to one of the requests numbered
    [calls], ..., [calls' - 1] for [symbol] with end of window [end_date]. *)
Definition answered_by (api : klines_api) (symbol : string) (end_date : date)
    (calls calls' : nat) (k : kline) : Prop :=
  exists i start_ms chunk,
    (calls <= i < calls')%nat /\
    api i symbol start_ms (date_to_ms end_date) = Page chunk /\
    k ∈ chunk.


(** Rows in strictly increasing order of date. *)
Definition date_increasing (rows : list daily_row) : Prop :=
  StronglySorted (fun a b => row_date a < row_date b) rows.

(** Some numeric text of the kline does not parse. *)
Definition malformed (float : string -> option Q) (k : kline) : Prop :=
  float (k_open k) = None \/ float (k_high k) = None \/
  float (k_low k) = None \/ float (k_close k) = None \/
  float (k_volume k) = None.

(** A candle whose close is not a number. *)
Definition broken_candle : kline :=
  Kline (date_to_ms EPOCH_ORDINAL) "1" "1" "1" "n/a" "1".

Definition broken_api : klines_api := fun calls _ _ _ =>
  match calls with
  | O => Page [broken_candle]
  | S _ => Page []
  end.

(** An endpoint with no data at all. *)
Definition silent_api : klines_api := fun _ _ _ _ => Page [].


#[global] Instance Qeq_decision (x y : Q) : Decision (x == y)%Q := Qeq_dec x y.

(** The 24h statistics give no usable volume for [symbol]: no ticker has
    that symbol, or the last one that has it carries no [quoteVolume] or
    one that does not parse. *)
Definition unpriced (float : string -> option Q) (tickers : list ticker)
    (symbol : string) : Prop :=
  match last (filter (fun t => t_symbol t = symbol) tickers) with
  | None => True
  | Some t =>
      t_quoteVolume t = None \/
      exists text, t_quoteVolume t = Some text /\ float text = None
  end.

(** What holds of every symbol the selector yields. *)
Definition eligible (infos : list symbol_info) (o : sym) : Prop :=
  (0 < sym_liquidity_metric o)%Q /\
  sym_quote_asset o ∈ Config.STABLE_QUOTES /\
  is_Some (sym_symbol_id o) /\
  exists info, info ∈ infos /\
    si_symbol info = sym_symbol o /\
    si_status info = Some "TRADING" /\
    si_isSpotTradingAllowed info <> Some false.

Definition garbled_tickers : list ticker :=
  [Ticker "AAAUSDT" (Some "100"); Ticker "AAAUSDT" (Some "n/a")].


(** Number of rows of [cryptocurrencies] flagged active. *)
Definition count_active (tbl : list crypto_row) : nat :=
  length (filter (fun r => c_is_active r = true) tbl).

(** What holds of the table [tbl'] and the symbols [out] after a selector
    run that selected something. *)
Definition active_set_replaced (max_symbols : option Z)
    (tbl' : list crypto_row) (out : list sym) : Prop :=
  (forall r, r ∈ tbl' -> c_is_active r = true ->
     exists o, o ∈ out /\ sym_symbol o = c_symbol r) /\
  (forall o, o ∈ out ->
     exists r, Db.select_by_symbol (sym_symbol o) tbl' = Some r /\
       c_is_active r = true /\ sym_symbol_id o = Some (c_id r)) /\
  (count_active tbl' <= length out)%nat /\
  (forall n, max_symbols = Some n -> 0 <= n ->
     (count_active tbl' <= Z.to_nat n)%nat).

(** The task [t] was made for one of [symbols]. *)
Definition task_of (symbols : list sym) (t : task) : Prop :=
  exists s, s ∈ symbols /\
    sym_symbol_id s = Some (task_symbol_id t) /\
    sym_symbol s = task_symbol t.

(** ** The pipeline (main.py) *)

Record store := Store {
  cryptocurrencies : list crypto_row;
  daily_data : list daily_row
}.

(** [run_pipeline]: the three filters in sequence, each run to exhaustion
    before the next starts ([list(...)]), on one connection.  [init_db] runs
    create_tables.sql, which is not part of the sources and is taken to
    leave the rows of existing tables as they are.  The result is the
    committed store and, when the run completes, the number of kline
    requests made. *)
Definition run_pipeline (float : string -> option Q)
    (symbols_resp : api_result (list symbol_info))
    (tickers_resp : api_result (list ticker)) (api : klines_api)
    (fuel : nat) (clock : nat -> date) (st : store) : store * outcome nat :=
  match filter_1_get_symbols float symbols_resp tickers_resp None
          (cryptocurrencies st) with
  | (crypto, Done symbols) =>
      match filter_2_check_dates clock 0 symbols (daily_data st) with
      | Done tasks =>
          let '(daily, result) :=
            filter_3_fill_data float api fuel tasks 0 (daily_data st) in
          (Store crypto daily, result)
      | Raised => (Store crypto (daily_data st), Raised)
      | OutOfFuel => (Store crypto (daily_data st), OutOfFuel)
      end
  | (crypto, Raised) => (Store crypto (daily_data st), Raised)
  | (crypto, OutOfFuel) => (Store crypto (daily_data st), OutOfFuel)
  end.

Definition small_store : store := Store one_active [other_row].


(** The table and the symbols that the selector leaves on [one_active] for
    [three_infos], [three_tickers] and a budget of 2. *)
Definition table_after_selection : list crypto_row :=
  [CryptoRow 1 "BTCUSDT" "BTC" "USDT" false;
   CryptoRow 2 "AAAUSDT" "AAA" "USDT" true;
   CryptoRow 3 "CCCUSDT" "CCC" "USDT" true].

Definition selected_symbols : list sym :=
  [Sym "AAAUSDT" "AAA" "USDT" 100 (Some 2);
   Sym "CCCUSDT" "CCC" "USDT" 100 (Some 3)].

(** The row [r] was stored before, or belongs to one of [tasks]. *)
Definition written_for (tasks : list task) (tbl : list daily_row)
    (r : daily_row) : Prop :=
  r ∈ tbl \/
  exists t, t ∈ tasks /\ row_symbol_id r = task_symbol_id t /\
    task_start_date t <= row_date r <= task_end_date t.


(** The number of symbols a budget [n] keeps of [m] ranked candidates, as
    the slice [candidates[:n]] counts them. *)
Definition kept_by_budget (n : Z) (m : nat) : nat :=
  if 0 <=? n then Nat.min (Z.to_nat n) m else Z.to_nat (Z.of_nat m + n).

(** ** Theorems *)

Lemma echo_loop_spins (fuel calls : nat) (sym : string) (acc : list kline) :
  fetch_klines_loop echo_api fuel sym EPOCH_ORDINAL (EPOCH_ORDINAL + 5)
    calls (EPOCH_ORDINAL + 1) acc = OutOfFuel.
Proof.
  revert calls acc. induction fuel as [|fuel IH]; intros calls acc.
  - reflexivity.
  - cbn [fetch_klines_loop].
    replace (EPOCH_ORDINAL + 1 <=? EPOCH_ORDINAL + 5) with true by reflexivity.
    cbn [echo_api last default echo_candle k_open_time_ms].
    replace (date_of_ms 0 + 1) with (EPOCH_ORDINAL + 1) by reflexivity.
    replace (EPOCH_ORDINAL + 1 <=? EPOCH_ORDINAL) with false by reflexivity.
    apply IH.
Qed.

(** The loop does stop on an empty page. *)
Lemma fetch_klines_loop_empty_page (api : klines_api) (fuel calls : nat)
    (sym : string) (start_date end_date cur : Z) (acc : list kline) :
  cur <= end_date ->
  api calls sym (date_to_ms cur) (date_to_ms end_date) = Page [] ->
  fetch_klines_loop api (S fuel) sym start_date end_date calls cur acc
  = Done (acc, S calls).
Proof.
  intros Hle Hpage. cbn [fetch_klines_loop].
  destruct (Z.leb_spec cur end_date); [|lia].
  rewrite Hpage. reflexivity.
Qed.

(** Against an endpoint whose pages never end before the requested window,
    the cursor grows at every iteration and the loop returns or raises
    within as many iterations as the range has days, plus one. *)
Lemma fetch_klines_loop_returns (api : klines_api) (sym : string)
    (start_date end_date : Z) :
  progressing api sym end_date ->
  forall fuel calls cur acc,
    (Z.to_nat (end_date - cur + 1) < fuel)%nat ->
    fetch_klines_loop api fuel sym start_date end_date calls cur acc <> OutOfFuel.
Proof.
  intros Hprog. induction fuel as [|fuel IH]; intros calls cur acc Hfuel; [lia|].
  cbn [fetch_klines_loop].
  destruct (Z.leb_spec cur end_date) as [Hle|Hgt]; [|discriminate].
  destruct (api calls sym (date_to_ms cur) (date_to_ms end_date))
    as [|[|k0 chunk]] eqn:Hpage; try discriminate.
  cbn zeta.
  destruct (last (k0 :: chunk)) as [k|] eqn:Hlast.
  - pose proof (Hprog _ _ _ _ Hpage Hlast) as Hk. unfold kline_date in Hk.
    cbn [default from_option id].
    destruct (date_of_ms (k_open_time_ms k) + 1 <=? start_date); [discriminate|].
    apply IH. lia.
  - apply last_None in Hlast. discriminate.
Qed.

(** C1 (evaluation of the code at the failing input).  Against an endpoint
    that echoes the same single candle, dated at the task's start date, the
    fetch loop of a task spanning six days never returns: whatever the fuel,
    the loop is still running.  The stall guard compares the new cursor with
    the task's start date and not with the previous cursor. *)
Theorem fetch_klines_range_echo_never_returns :
  forall (fuel calls : nat) (sym : string),
    fetch_klines_range echo_api fuel calls sym EPOCH_ORDINAL (EPOCH_ORDINAL + 5)
    = OutOfFuel.
Proof.
  intros fuel calls sym. unfold fetch_klines_range.
  destruct fuel as [|fuel]; [reflexivity|].
  cbn [fetch_klines_loop].
  replace (EPOCH_ORDINAL <=? EPOCH_ORDINAL + 5) with true by reflexivity.
  cbn [echo_api last default echo_candle k_open_time_ms].
  replace (date_of_ms 0 + 1) with (EPOCH_ORDINAL + 1) by reflexivity.
  replace (EPOCH_ORDINAL + 1 <=? EPOCH_ORDINAL) with false by reflexivity.
  apply echo_loop_spins.
Qed.

(** *** Normalization *)

Section NormalizeFacts.

Variable float : string -> option Q.

Lemma kline_row_fields sid k r :
  kline_row float sid k = Done r ->
  row_date r = kline_date k /\ row_symbol_id r = sid.
Proof.
  unfold kline_row.
  destruct (float (k_open k)), (float (k_high k)), (float (k_low k)),
    (float (k_close k)), (float (k_volume k)); try discriminate.
  intros [= <-]. split; reflexivity.
Qed.

Lemma normalize_loop_cons sid k klines m rows :
  normalize_loop float sid (k :: klines) m = Done rows ->
  exists r, kline_row float sid k = Done r /\
    normalize_loop float sid klines (<[row_date r := r]> m) = Done rows.
Proof.
  cbn [normalize_loop]. unfold mbind, outcome_bind.
  destruct (kline_row float sid k) as [r| |]; try discriminate.
  intros H. exists r. split; [reflexivity | exact H].
Qed.

Lemma normalize_loop_lookup sid klines : forall m rows,
  normalize_loop float sid klines m = Done rows ->
  forall d,
    match last (filter (fun k => kline_date k = d) klines) with
    | Some k => exists r, kline_row float sid k = Done r /\ rows !! d = Some r
    | None => rows !! d = m !! d
    end.
Proof.
  induction klines as [|k klines IH]; intros m rows Hrun d.
  - cbn in Hrun. injection Hrun as <-. reflexivity.
  - apply normalize_loop_cons in Hrun as (r & Hr & Hrest).
    specialize (IH _ _ Hrest d).
    destruct (kline_row_fields _ _ _ Hr) as [Hdate _].
    destruct (decide (kline_date k = d)) as [Hd|Hd].
    + rewrite filter_cons_True by exact Hd.
      rewrite last_cons.
      destruct (last (filter (fun k0 => kline_date k0 = d) klines)) as [k'|].
      * exact IH.
      * exists r. split; [exact Hr|].
        rewrite IH, Hdate, Hd. apply lookup_insert_eq.
    + rewrite filter_cons_False by exact Hd.
      destruct (last (filter (fun k0 => kline_date k0 = d) klines)) as [k'|].
      * exact IH.
      * rewrite IH. apply lookup_insert_ne. congruence.
Qed.

Lemma normalize_loop_keyed sid klines : forall m rows,
  keyed_by_date sid m ->
  normalize_loop float sid klines m = Done rows ->
  keyed_by_date sid rows.
Proof.
  induction klines as [|k klines IH]; intros m rows Hm Hrun.
  - cbn in Hrun. injection Hrun as <-. exact Hm.
  - apply normalize_loop_cons in Hrun as (r & Hr & Hrest).
    eapply IH; [|exact Hrest].
    intros d r' Hl. destruct (decide (row_date r = d)) as [<-|Hne].
    + rewrite lookup_insert_eq in Hl. injection Hl as <-.
      destruct (kline_row_fields _ _ _ Hr). split; [reflexivity | assumption].
    + rewrite lookup_insert_ne in Hl by exact Hne. exact (Hm _ _ Hl).
Qed.

Lemma normalize_klines_keyed sid klines rows :
  normalize_klines float sid klines = Done rows -> keyed_by_date sid rows.
Proof.
  apply normalize_loop_keyed. intros d r Hl. rewrite lookup_empty in Hl. discriminate.
Qed.

Lemma normalize_loop_total sid klines : forall m,
  (forall k, k ∈ klines -> exists r, kline_row float sid k = Done r) ->
  exists rows, normalize_loop float sid klines m = Done rows.
Proof.
  induction klines as [|k klines IH]; intros m Hall.
  - exists m. reflexivity.
  - destruct (Hall k) as [r Hr]; [left|].
    cbn [normalize_loop]. rewrite Hr. cbn.
    apply IH. intros k' Hk'. apply Hall. right. exact Hk'.
Qed.

(** C10.  When every fetched kline parses, normalization returns a dict
    with, for every date, the row of the last kline of the list that falls
    on that date (and nothing for a date no kline falls on); two entries of
    the dict never carry the same date. *)
Theorem normalize_klines_last_wins (sid : Z) (klines : list kline) :
  (forall k, k ∈ klines -> exists r, kline_row float sid k = Done r) ->
  exists rows,
    normalize_klines float sid klines = Done rows /\
    last_kline_wins float sid klines rows.
Proof.
  intros Hall.
  destruct (normalize_loop_total sid klines ∅ Hall) as [rows Hrows].
  exists rows. split; [exact Hrows|]. split.
  - intros d. pose proof (normalize_loop_lookup _ _ _ _ Hrows d) as H.
    destruct (last _); [exact H|]. rewrite H. apply lookup_empty.
  - intros d1 d2 r1 r2 H1 H2 Heq.
    destruct (normalize_klines_keyed _ _ _ Hrows _ _ H1) as [<- _].
    destruct (normalize_klines_keyed _ _ _ Hrows _ _ H2) as [<- _].
    exact Heq.
Qed.

End NormalizeFacts.

Lemma normalize_klines_last_wins_witness :
  exists rows,
    normalize_klines digit_float 1 repeated_klines = Done rows /\
    last_kline_wins digit_float 1 repeated_klines rows.
Proof.
  apply (normalize_klines_last_wins digit_float 1 repeated_klines).
  intros k Hk. unfold repeated_klines in Hk.
  apply elem_of_cons in Hk as [->|Hk]; [eexists; reflexivity|].
  apply elem_of_cons in Hk as [->|Hk]; [eexists; reflexivity|].
  inversion Hk.
Defined.

(** *** Gap fill *)

Lemma filter_none {A : Type} (P : A -> Prop) `{!forall x, Decision (P x)}
    (l : list A) :
  (forall x, x ∈ l -> ~ P x) -> filter P l = [].
Proof.
  induction l as [|x l IH]; intros Hnone; [reflexivity|].
  rewrite filter_cons_False by (apply Hnone; left).
  apply IH. intros y Hy. apply Hnone. right. exact Hy.
Qed.

Section FillFacts.

Variable sid : Z.
Variable rows : gmap Z daily_row.
Hypothesis rows_keyed : keyed_by_date sid rows.

Lemma fill_loop_acc n : forall cur pc acc,
  fill_loop sid rows n cur pc acc = acc ++ fill_loop sid rows n cur pc [].
Proof.
  induction n as [|n IH]; intros cur pc acc; cbn [fill_loop].
  - symmetry. apply app_nil_r.
  - destruct (rows !! cur) as [r|]; [|destruct pc as [c|]].
    + rewrite (IH _ _ (acc ++ [r])), (IH _ _ ([] ++ [r])), <- !app_assoc.
      reflexivity.
    + rewrite (IH _ _ (acc ++ _)), (IH _ _ ([] ++ _)), <- !app_assoc.
      reflexivity.
    + apply IH.
Qed.

(** One iteration, with the accumulator factored out. *)
Lemma fill_loop_step n cur pc :
  fill_loop sid rows (S n) cur pc [] =
  match rows !! cur with
  | Some r => r :: fill_loop sid rows n (cur + 1) (Some (row_close r)) []
  | None =>
      match pc with
      | Some c => synthetic_row sid cur c :: fill_loop sid rows n (cur + 1) pc []
      | None => fill_loop sid rows n (cur + 1) None []
      end
  end.
Proof.
  cbn [fill_loop].
  destruct (rows !! cur) as [r|]; [|destruct pc as [c|]];
    [rewrite fill_loop_acc | rewrite fill_loop_acc |]; reflexivity.
Qed.

Lemma fill_loop_dates n : forall cur pc r,
  r ∈ fill_loop sid rows n cur pc [] ->
  row_symbol_id r = sid /\ cur <= row_date r < cur + Z.of_nat n.
Proof using rows_keyed.
  induction n as [|n IH]; intros cur pc r Hin.
  - cbn in Hin. inversion Hin.
  - rewrite fill_loop_step in Hin.
    destruct (rows !! cur) as [r0|] eqn:Hcur; [|destruct pc as [c|]].
    + apply elem_of_cons in Hin as [->|Hin].
      * destruct (rows_keyed _ _ Hcur) as [-> ->]. lia.
      * apply IH in Hin. lia.
    + apply elem_of_cons in Hin as [->|Hin].
      * cbn. lia.
      * apply IH in Hin. lia.
    + apply IH in Hin. lia.
Qed.

Lemma fill_loop_none_at n cur pc d :
  d < cur ->
  filter (fun r => row_date r = d) (fill_loop sid rows n cur pc []) = [].
Proof using rows_keyed.
  intros Hlt. apply filter_none.
  intros r Hin Hd. apply fill_loop_dates in Hin. lia.
Qed.

(** What the walk started at [cur] with previous close [pc] yields for the
    date [d]. *)
Lemma fill_loop_at n : forall cur pc d,
  cur <= d < cur + Z.of_nat n ->
  let at_d := filter (fun r => row_date r = d) (fill_loop sid rows n cur pc []) in
  match rows !! d with
  | Some r => at_d = [r]
  | None =>
      (forall d0 r0,
         cur <= d0 < d -> rows !! d0 = Some r0 ->
         (forall d1, d0 < d1 < d -> rows !! d1 = None) ->
         at_d = [synthetic_row sid d (row_close r0)]) /\
      ((forall d0, cur <= d0 < d -> rows !! d0 = None) ->
       at_d = match pc with
              | Some c => [synthetic_row sid d c]
              | None => []
              end)
  end.
Proof using rows_keyed.
  induction n as [|n IH]; intros cur pc d Hd; [lia|].
  cbn zeta. rewrite fill_loop_step.
  destruct (decide (d = cur)) as [->|Hne].
  - (* the date handled by this iteration *)
    destruct (rows !! cur) as [r|] eqn:Hcur; cbv beta iota.
    + destruct (rows_keyed _ _ Hcur) as [Hdate _].
      rewrite filter_cons_True by exact Hdate.
      rewrite fill_loop_none_at by lia. reflexivity.
    + split; [intros d0 r0 Hd0; lia|]. intros _.
      destruct pc as [c|].
      * rewrite filter_cons_True by reflexivity.
        rewrite fill_loop_none_at by lia. reflexivity.
      * apply fill_loop_none_at. lia.
  - (* a later date: this iteration only updates the previous close *)
    assert (Hd' : cur + 1 <= d < cur + 1 + Z.of_nat n) by lia.
    destruct (rows !! cur) as [r|] eqn:Hcur; cbv beta iota.
    + destruct (rows_keyed _ _ Hcur) as [Hdate _].
      rewrite filter_cons_False by lia.
      specialize (IH (cur + 1) (Some (row_close r)) d Hd'). cbn zeta in IH.
      destruct (rows !! d) as [rd|]; [exact IH|].
      destruct IH as [IHnear IHfar]. split.
      * intros d0 r0 Hd0 Hl0 Hgap.
        destruct (decide (d0 = cur)) as [->|Hne0].
        -- rewrite Hcur in Hl0. injection Hl0 as <-.
           apply IHfar. intros d1 Hd1. apply Hgap. lia.
        -- apply (IHnear d0 r0); [lia | exact Hl0 | exact Hgap].
      * intros Hnone. rewrite Hnone in Hcur by lia. discriminate.
    + assert (Hskip :
        filter (fun r => row_date r = d)
          match pc with
          | Some c => synthetic_row sid cur c :: fill_loop sid rows n (cur + 1) pc []
          | None => fill_loop sid rows n (cur + 1) None []
          end
        = filter (fun r => row_date r = d) (fill_loop sid rows n (cur + 1) pc [])).
      { destruct pc as [c|]; [|reflexivity].
        apply filter_cons_False. cbn. lia. }
      rewrite Hskip.
      specialize (IH (cur + 1) pc d Hd'). cbn zeta in IH.
      destruct (rows !! d) as [rd|]; [exact IH|].
      destruct IH as [IHnear IHfar]. split.
      * intros d0 r0 Hd0 Hl0 Hgap.
        destruct (decide (d0 = cur)) as [->|Hne0]; [congruence|].
        apply (IHnear d0 r0); [lia | exact Hl0 | exact Hgap].
      * intros Hnone. apply IHfar. intros d0 Hd0. apply Hnone. lia.
Qed.

End FillFacts.

Lemma synthetic_row_flat (sid : Z) (d : Z) (c : Q) :
  flat_bar sid d c (synthetic_row sid d c).
Proof. repeat split. Qed.

(** C5.  In the walk over every date of [start_date .. end_date], on the
    bars normalized from the fetched klines: a date that has a bar yields
    exactly that bar; a date without one, after a nearest earlier date of the
    range that has a bar, yields exactly one synthetic row with volume 0 and
    open, high, low and close equal to that bar's close; a date without one,
    with no earlier date of the range that has a bar, yields no row. *)
Theorem fill_missing_dates_walk (float : string -> option Q) (sid : Z)
    (klines : list kline) (rows : gmap Z daily_row) (start_date end_date : Z) :
  normalize_klines float sid klines = Done rows ->
  forall d, start_date <= d <= end_date ->
    gap_fill_rule sid start_date rows
      (fill_missing_dates sid start_date end_date rows) d.
Proof.
  intros Hnorm d Hd.
  pose proof (normalize_klines_keyed _ _ _ _ Hnorm) as Hkeyed.
  unfold gap_fill_rule, fill_missing_dates.
  pose proof (fill_loop_at sid rows Hkeyed
                (Z.to_nat (end_date - start_date + 1)) start_date None d) as H.
  cbn zeta in H |- *.
  destruct (rows !! d) as [bar|].
  - apply H. lia.
  - destruct H as [Hnear Hfar]; [lia|]. split.
    + intros d0 bar0 Hd0 Hl0 Hgap. eexists. split.
      * apply (Hnear d0 bar0 Hd0 Hl0 Hgap).
      * apply synthetic_row_flat.
    + exact Hfar.
Qed.

Lemma fill_missing_dates_walk_witness :
  exists rows,
    normalize_klines (fun _ => Some 7%Q) 1 two_bar_klines = Done rows /\
    gap_fill_rule 1 EPOCH_ORDINAL rows
      (fill_missing_dates 1 EPOCH_ORDINAL (EPOCH_ORDINAL + 2) rows)
      (EPOCH_ORDINAL + 1).
Proof.
  eexists. split.
  - vm_compute. reflexivity.
  - apply (fill_missing_dates_walk (fun _ => Some 7%Q) 1 two_bar_klines).
    + vm_compute. reflexivity.
    + unfold EPOCH_ORDINAL. lia.
Defined.

(** *** The daily_data table *)

Lemma filter_ext_elem {A : Type} (P R : A -> Prop)
    `{!forall x, Decision (P x)} `{!forall x, Decision (R x)} (l : list A) :
  (forall x, x ∈ l -> P x <-> R x) -> filter P l = filter R l.
Proof.
  induction l as [|x l IH]; intros Hiff; [reflexivity|].
  assert (Hl : filter P l = filter R l).
  { apply IH. intros y Hy. apply Hiff. right. exact Hy. }
  destruct (decide (P x)) as [HP|HP].
  - rewrite !filter_cons_True; [congruence | apply Hiff; [left|exact HP] | exact HP].
  - rewrite !filter_cons_False; [exact Hl | | exact HP].
    intros HR. apply HP, Hiff; [left | exact HR].
Qed.

Lemma same_key_spec r r' :
  Db.same_key r r' = true <->
  row_symbol_id r = row_symbol_id r' /\ row_date r = row_date r'.
Proof. unfold Db.same_key. rewrite andb_true_iff, !Z.eqb_eq. reflexivity. Qed.

Lemma count_rows_cons sid d r tbl :
  Db.count_rows sid d (r :: tbl) =
  ((if decide (row_symbol_id r = sid /\ row_date r = d) then 1 else 0)
   + Db.count_rows sid d tbl)%nat.
Proof.
  unfold Db.count_rows. rewrite filter_cons.
  destruct (decide _); reflexivity.
Qed.

Lemma count_rows_upsert sid d r tbl :
  Db.count_rows sid d (Db.upsert_daily r tbl) =
  if decide (row_symbol_id r = sid /\ row_date r = d)
  then Nat.max 1 (Db.count_rows sid d tbl)
  else Db.count_rows sid d tbl.
Proof.
  induction tbl as [|r' tbl IH]; cbn [Db.upsert_daily].
  - rewrite count_rows_cons. unfold Db.count_rows. cbn.
    destruct (decide _); reflexivity.
  - destruct (Db.same_key r r') eqn:Hkey.
    + apply same_key_spec in Hkey as [Hs Hd].
      rewrite !count_rows_cons, <- Hs, <- Hd.
      destruct (decide (row_symbol_id r = sid /\ row_date r = d)); lia.
    + assert (Hne : ~ (row_symbol_id r = row_symbol_id r' /\ row_date r = row_date r')).
      { rewrite <- same_key_spec, Hkey. discriminate. }
      rewrite !count_rows_cons, IH.
      destruct (decide (row_symbol_id r = sid /\ row_date r = d)) as [[? ?]|];
        destruct (decide (row_symbol_id r' = sid /\ row_date r' = d)) as [[? ?]|];
        lia.
Qed.

Lemma count_rows_executemany sid d rows : forall tbl,
  Db.count_rows sid d (Db.executemany_daily rows tbl) =
  match Db.count_rows sid d rows with
  | O => Db.count_rows sid d tbl
  | S _ => Nat.max 1 (Db.count_rows sid d tbl)
  end.
Proof.
  unfold Db.executemany_daily.
  induction rows as [|r rows IH]; intros tbl; [reflexivity|].
  cbn [fold_left]. rewrite IH, count_rows_upsert, count_rows_cons.
  destruct (decide (row_symbol_id r = sid /\ row_date r = d));
    destruct (Db.count_rows sid d rows); cbn [Nat.add]; lia.
Qed.

Lemma unique_keys_nil : Db.unique_keys [].
Proof. intros sid d. cbn. lia. Qed.

(** *** Coverage of a completed task *)

Lemma nearest_bar (rows : gmap Z daily_row) (lo : Z) (n : nat) : forall d,
  d = lo + Z.of_nat n ->
  (exists d0, lo <= d0 < d /\ is_Some (rows !! d0)) ->
  exists d0 r0, lo <= d0 < d /\ rows !! d0 = Some r0 /\
    forall d1, d0 < d1 < d -> rows !! d1 = None.
Proof.
  induction n as [|n IH]; intros d -> (d0 & Hd0 & Hsome); [lia|].
  destruct (rows !! (lo + Z.of_nat n)) as [r|] eqn:Htop.
  - exists (lo + Z.of_nat n), r. split; [lia|]. split; [exact Htop|].
    intros d1 Hd1. lia.
  - destruct (IH (lo + Z.of_nat n) eq_refl) as (d' & r' & Hd' & Hl' & Hgap).
    { exists d0. split; [|exact Hsome].
      destruct (decide (d0 = lo + Z.of_nat n)) as [->|]; [|lia].
      rewrite Htop in Hsome. destruct Hsome as [? [=]]. }
    exists d', r'. split; [lia|]. split; [exact Hl'|].
    intros d1 Hd1.
    destruct (decide (d1 = lo + Z.of_nat n)) as [->|]; [exact Htop|].
    apply Hgap. lia.
Qed.

Section CoverageFacts.

Variable float : string -> option Q.

Lemma normalize_klines_dom sid klines rows d :
  normalize_klines float sid klines = Done rows ->
  is_Some (rows !! d) <-> exists k, k ∈ klines /\ kline_date k = d.
Proof.
  intros Hnorm.
  pose proof (normalize_loop_lookup float _ _ _ _ Hnorm d) as H.
  destruct (last (filter (fun k => kline_date k = d) klines)) as [k|] eqn:Hlast.
  - destruct H as (r & _ & Hl). split.
    + intros _. exists k.
      apply last_Some_elem_of, list_elem_of_filter in Hlast as [? ?]. done.
    + intros _. rewrite Hl. eauto.
  - rewrite H, lookup_empty. split; [intros [? [=]]|].
    intros (k & Hin & Hd). apply last_None in Hlast.
    exfalso. eapply filter_nil_not_elem_of; [exact Hlast| |exact Hin]. exact Hd.
Qed.

(** The rows the walk stores for the date [d]: one when some date of
    [start_date .. d] has a bar, none otherwise. *)
Lemma fill_missing_dates_count sid rows start_date end_date d :
  keyed_by_date sid rows ->
  start_date <= d <= end_date ->
  ((exists d0, start_date <= d0 <= d /\ is_Some (rows !! d0)) ->
   Db.count_rows sid d (fill_missing_dates sid start_date end_date rows) = 1%nat) /\
  ((forall d0, start_date <= d0 <= d -> rows !! d0 = None) ->
   Db.count_rows sid d (fill_missing_dates sid start_date end_date rows) = 0%nat).
Proof.
  intros Hkeyed Hd.
  assert (Hcount :
    Db.count_rows sid d (fill_missing_dates sid start_date end_date rows)
    = length (filter (fun r => row_date r = d)
                (fill_missing_dates sid start_date end_date rows))).
  { unfold Db.count_rows. f_equal. apply filter_ext_elem.
    intros r Hin. apply (fill_loop_dates sid rows Hkeyed) in Hin. tauto. }
  rewrite Hcount. unfold fill_missing_dates.
  pose proof (fill_loop_at sid rows Hkeyed
                (Z.to_nat (end_date - start_date + 1)) start_date None d) as H.
  cbn zeta in H. specialize (H ltac:(lia)).
  destruct (rows !! d) as [bar|] eqn:Hbar.
  - rewrite H. split; [reflexivity|].
    intros Hnone. rewrite Hnone in Hbar by lia. discriminate.
  - destruct H as [Hnear Hfar]. split.
    + intros (d0 & Hd0 & Hsome).
      destruct (nearest_bar rows start_date (Z.to_nat (d - start_date)) d)
        as (d' & r' & Hd' & Hl' & Hgap); [lia| |].
      * exists d0. split; [|exact Hsome].
        destruct (decide (d0 = d)) as [->|]; [|lia].
        rewrite Hbar in Hsome. destruct Hsome as [? [=]].
      * rewrite (Hnear d' r' Hd' Hl' Hgap). reflexivity.
    + intros Hnone. rewrite Hfar; [reflexivity|].
      intros d0 Hd0. apply Hnone. lia.
Qed.

End CoverageFacts.

Section TaskFacts.

Variable float : string -> option Q.
Variable api : klines_api.

(** What a task that completes leaves in the table. *)
Lemma fill_task_done fuel t calls tbl tbl' calls' :
  fill_task float api fuel t calls tbl = (tbl', Done calls') ->
  exists klines rows,
    fetch_klines_range api fuel calls (task_symbol t)
      (task_start_date t) (task_end_date t) = Done (klines, calls') /\
    normalize_klines float (task_symbol_id t) klines = Done rows /\
    tbl' = Db.executemany_daily
             (fill_missing_dates (task_symbol_id t) (task_start_date t)
                (task_end_date t) rows) tbl.
Proof.
  unfold fill_task.
  destruct (fetch_klines_range _ _ _ _ _ _) as [[klines c]| |] eqn:Hfetch;
    try discriminate.
  destruct (normalize_klines _ _ _) as [rows| |] eqn:Hnorm; try discriminate.
  intros Hrun. exists klines, rows.
  destruct (fill_missing_dates _ _ _ rows) as [|r filled] eqn:Hfill;
    injection Hrun as <- <-;
    (split; [reflexivity | split; [exact Hnorm | rewrite ?Hfill; reflexivity]]).
Qed.

(** C2, as the code has it.  After a task that completes, on a table that
    respects the unique key: no date of [start .. end] has more than one row
    for the symbol; every date from the first date of the range for which a
    candle was fetched has exactly one; the dates of the range before the
    first fetched candle have the rows they had before the task. *)
Theorem fill_task_coverage (fuel : nat) (t : task) (calls : nat)
    (tbl tbl' : list daily_row) (calls' : nat) :
  Db.unique_keys tbl ->
  fill_task float api fuel t calls tbl = (tbl', Done calls') ->
  exists klines,
    fetch_klines_range api fuel calls (task_symbol t)
      (task_start_date t) (task_end_date t) = Done (klines, calls') /\
    forall d, task_start_date t <= d <= task_end_date t ->
      covered_from_first_candle (task_symbol_id t) (task_start_date t)
        klines tbl tbl' d.
Proof.
  intros Huniq Hrun.
  apply fill_task_done in Hrun as (klines & rows & Hfetch & Hnorm & ->).
  exists klines. split; [exact Hfetch|]. intros d Hd.
  pose proof (normalize_klines_keyed _ _ _ _ Hnorm) as Hkeyed.
  destruct (fill_missing_dates_count (task_symbol_id t) rows
              (task_start_date t) (task_end_date t) d Hkeyed Hd)
    as [Hone Hzero].
  pose proof (Huniq (task_symbol_id t) d) as Hle.
  unfold covered_from_first_candle. rewrite count_rows_executemany.
  split; [|split].
  - destruct (Db.count_rows _ _ (fill_missing_dates _ _ _ _)); lia.
  - intros (k & Hin & Hk). rewrite Hone; [lia|].
    exists (kline_date k). split; [exact Hk|].
    apply (normalize_klines_dom float _ _ _ _ Hnorm). eauto.
  - intros Hnone. rewrite Hzero; [reflexivity|].
    intros d0 Hd0. apply eq_None_not_Some. intros Hsome.
    apply (normalize_klines_dom float _ _ _ _ Hnorm) in Hsome as (k & Hin & Hk).
    apply (Hnone k Hin). lia.
Qed.

(** C4.  When the tasks before [t] have completed and a request made while
    paging for [t] fails, the task fails and the table is the one the task
    started with; the run stops there with that table. *)
Theorem fill_task_api_error_no_write (fuel : nat) (tasks_done : list task)
    (t : task) (tasks_rest : list task) (calls : nat)
    (tbl tbl1 : list daily_row) (calls1 : nat) :
  filter_3_fill_data float api fuel tasks_done calls tbl = (tbl1, Done calls1) ->
  fetch_klines_range api fuel calls1 (task_symbol t)
    (task_start_date t) (task_end_date t) = Raised ->
  fill_task float api fuel t calls1 tbl1 = (tbl1, Raised) /\
  filter_3_fill_data float api fuel (tasks_done ++ t :: tasks_rest) calls tbl
  = (tbl1, Raised).
Proof.
  intros Hdone Hfetch.
  assert (Htask : fill_task float api fuel t calls1 tbl1 = (tbl1, Raised)).
  { unfold fill_task. rewrite Hfetch. reflexivity. }
  split; [exact Htask|].
  revert calls tbl Hdone.
  induction tasks_done as [|t0 tasks_done IH]; intros calls tbl Hdone.
  - cbn in Hdone. injection Hdone as -> ->.
    cbn [app filter_3_fill_data]. rewrite Htask. reflexivity.
  - cbn [app filter_3_fill_data] in Hdone |- *.
    destruct (fill_task float api fuel t0 calls tbl) as [tbl0 [c0| |]];
      try discriminate.
    apply IH. exact Hdone.
Qed.

End TaskFacts.

Lemma fill_task_coverage_witness :
  exists klines,
    fetch_klines_range late_api 10 0 (task_symbol early_task)
      (task_start_date early_task) (task_end_date early_task)
    = Done (klines, 2%nat) /\
    forall d, task_start_date early_task <= d <= task_end_date early_task ->
      covered_from_first_candle (task_symbol_id early_task)
        (task_start_date early_task) klines []
        (fill_task digit_float late_api 10 early_task 0 []).1 d.
Proof.
  apply (fill_task_coverage digit_float late_api 10 early_task 0 []).
  - exact unique_keys_nil.
  - vm_compute. reflexivity.
Defined.

(** C2, counterexample.  A task over 1970-01-01 .. 1970-01-03 for which the
    endpoint has a candle for 1970-01-02 only completes, and leaves no row
    for 1970-01-01. *)
Lemma coverage_fails_before_first_candle :
  ~ (forall (float : string -> option Q) (api : klines_api) (fuel : nat)
       (t : task) (calls : nat) (tbl tbl' : list daily_row) (calls' : nat),
       Db.unique_keys tbl ->
       fill_task float api fuel t calls tbl = (tbl', Done calls') ->
       forall d, task_start_date t <= d <= task_end_date t ->
         Db.count_rows (task_symbol_id t) d tbl' = 1%nat).
Proof.
  intros Hclaim.
  pose proof (Hclaim digit_float late_api 10%nat early_task 0%nat []
                (fill_task digit_float late_api 10 early_task 0 []).1 2%nat
                unique_keys_nil) as H.
  specialize (H ltac:(vm_compute; reflexivity) EPOCH_ORDINAL).
  specialize (H ltac:(vm_compute; split; discriminate)).
  vm_compute in H. discriminate.
Qed.

Lemma fill_task_api_error_no_write_witness :
  fill_task digit_float failing_api 10 early_task 0 [other_row]
  = ([other_row], Raised) /\
  filter_3_fill_data digit_float failing_api 10 ([] ++ [early_task]) 0 [other_row]
  = ([other_row], Raised).
Proof.
  apply (fill_task_api_error_no_write digit_float failing_api 10 []
           early_task [] 0 [other_row] [other_row] 0).
  - reflexivity.
  - vm_compute. reflexivity.
Defined.

(** *** Gap Detector *)

Lemma select_last_date_fold (sid : Z) (tbl : list daily_row) : forall acc,
  match fold_left
          (fun acc r =>
             if row_symbol_id r =? sid
             then Some (match acc with
                        | None => row_date r
                        | Some m => Z.max m (row_date r)
                        end)
             else acc) tbl acc with
  | None => acc = None /\ no_stored_date sid tbl
  | Some d =>
      (acc = Some d \/ exists r, r ∈ tbl /\ row_symbol_id r = sid /\ row_date r = d) /\
      (forall m, acc = Some m -> m <= d) /\
      (forall r, r ∈ tbl -> row_symbol_id r = sid -> row_date r <= d)
  end.
Proof.
  induction tbl as [|r tbl IH]; intros acc; cbn [fold_left].
  - destruct acc as [m|].
    + split; [left; reflexivity|]. split.
      * intros m' [= ->]. lia.
      * intros r Hin. inversion Hin.
    + split; [reflexivity|]. intros r Hin. inversion Hin.
  - specialize (IH (if row_symbol_id r =? sid
                    then Some (match acc with
                               | None => row_date r
                               | Some m => Z.max m (row_date r)
                               end)
                    else acc)).
    destruct (fold_left _ tbl _) as [d|].
    + destruct IH as (Hwit & Hacc & Hall).
      destruct (Z.eqb_spec (row_symbol_id r) sid) as [Hsid|Hsid].
      * specialize (Hacc _ eq_refl). split; [|split].
        -- destruct Hwit as [[= Hd]|(r' & Hin & Hs & Hd)].
           ++ destruct acc as [m|].
              ** destruct (Z.max_spec m (row_date r)) as [[? Hmax]|[? Hmax]].
                 --- right. exists r. split; [left|]. split; [exact Hsid | lia].
                 --- left. f_equal. lia.
              ** right. exists r. split; [left|]. split; [exact Hsid | lia].
           ++ right. exists r'. split; [right; exact Hin | tauto].
        -- intros m [= ->]. lia.
        -- intros r' Hin Hs. apply elem_of_cons in Hin as [->|Hin].
           ++ destruct acc; lia.
           ++ apply Hall; assumption.
      * split; [|split].
        -- destruct Hwit as [Hd|(r' & Hin & Hs & Hd)]; [left; exact Hd|].
           right. exists r'. split; [right; exact Hin | tauto].
        -- exact Hacc.
        -- intros r' Hin Hs. apply elem_of_cons in Hin as [->|Hin].
           ++ contradiction.
           ++ apply Hall; assumption.
    + destruct IH as [Hacc Hnone].
      destruct (Z.eqb_spec (row_symbol_id r) sid) as [Hsid|Hsid]; [discriminate|].
      split; [exact Hacc|].
      intros r' Hin. apply elem_of_cons in Hin as [->|Hin]; [exact Hsid|].
      apply Hnone. exact Hin.
Qed.

Lemma select_last_date_None sid tbl :
  no_stored_date sid tbl -> Db.select_last_date sid tbl = None.
Proof.
  intros Hnone. unfold Db.select_last_date.
  pose proof (select_last_date_fold sid tbl None) as H.
  destruct (fold_left _ tbl None) as [d|]; [|reflexivity].
  destruct H as ([[=]|(r & Hin & Hs & _)] & _).
  exfalso. exact (Hnone r Hin Hs).
Qed.

Lemma select_last_date_Some sid tbl d :
  max_stored_date sid tbl d -> Db.select_last_date sid tbl = Some d.
Proof.
  intros [(r & Hin & Hs & Hd) Hmax]. unfold Db.select_last_date.
  pose proof (select_last_date_fold sid tbl None) as H.
  destruct (fold_left _ tbl None) as [d'|].
  - destruct H as ([[=]|(r' & Hin' & Hs' & Hd')] & _ & Hall).
    f_equal. specialize (Hall r Hin Hs). specialize (Hmax r' Hin' Hs'). lia.
  - destruct H as [_ Hnone]. exfalso. exact (Hnone r Hin Hs).
Qed.

Lemma check_dates_step_ordered today tbl s t :
  check_dates_step today tbl s = Done (Some t) ->
  task_start_date t <= task_end_date t.
Proof.
  unfold check_dates_step.
  destruct (sym_symbol_id s) as [sid|]; [|discriminate].
  destruct (Db.select_last_date sid tbl) as [d|].
  - destruct (Z.leb_spec (d + 1) today); [|discriminate].
    intros [= <-]. exact H.
  - destruct (Z.leb_spec (today - 365 * Config.YEARS_OF_HISTORY) today);
      [|discriminate].
    intros [= <-]. exact H.
Qed.

Lemma filter_2_check_dates_tasks clock tbl symbols : forall i tasks,
  filter_2_check_dates clock i symbols tbl = Done tasks ->
  (length tasks <= length symbols)%nat /\
  Forall (fun t => task_start_date t <= task_end_date t) tasks.
Proof.
  induction symbols as [|s symbols IH]; intros i tasks Hrun.
  - cbn in Hrun. injection Hrun as <-. split; [reflexivity | constructor].
  - cbn [filter_2_check_dates] in Hrun. unfold mbind, outcome_bind, mret, outcome_ret in Hrun.
    destruct (check_dates_step (clock i) tbl s) as [yielded| |] eqn:Hstep;
      try discriminate.
    destruct (filter_2_check_dates clock (S i) symbols tbl) as [rest| |] eqn:Hrest;
      try discriminate.
    destruct (IH _ _ Hrest) as [Hlen Hall].
    injection Hrun as <-. destruct yielded as [t|]; cbn [length].
    + split; [lia|]. constructor; [|exact Hall].
      exact (check_dates_step_ordered _ _ _ _ Hstep).
    + split; [lia | exact Hall].
Qed.

(** C6.  For a symbol with a resolved identity the Gap Detector yields at
    most one task: with no stored date, the task from today minus the
    history window to today; with greatest stored date [d], the task from
    [d + 1] to today when [d + 1 <= today] and nothing otherwise (last stored
    date 2024-01-10 gives start 2024-01-11); every yielded task has
    start <= end, and a run yields no more tasks than it reads symbols. *)
Theorem gap_detector_range (today : Z) (tbl : list daily_row) (s : sym)
    (sid : Z) :
  sym_symbol_id s = Some sid ->
  gap_detector_rule today tbl s sid.
Proof.
  intros Hsid. unfold gap_detector_rule.
  assert (Hmax : forall d, max_stored_date sid tbl d ->
            check_dates_step today tbl s =
            Done (if d + 1 <=? today
                  then Some (Task sid (sym_symbol s) (d + 1) today)
                  else None)).
  { intros d Hd. unfold check_dates_step.
    rewrite Hsid, (select_last_date_Some _ _ _ Hd).
    destruct (d + 1 <=? today); reflexivity. }
  split; [|split; [exact Hmax|split; [|split]]].
  - intros Hnone. unfold check_dates_step.
    rewrite Hsid, (select_last_date_None _ _ Hnone).
    destruct (Z.leb_spec (today - 365 * Config.YEARS_OF_HISTORY) today) as [|Hlt];
      [reflexivity|].
    unfold Config.YEARS_OF_HISTORY in Hlt. lia.
  - apply check_dates_step_ordered.
  - intros Hd Htoday. rewrite (Hmax _ Hd).
    replace (ymd2ord 2024 1 10 + 1) with (ymd2ord 2024 1 11) by reflexivity.
    destruct (Z.leb_spec (ymd2ord 2024 1 11) today); [reflexivity | lia].
  - intros clock i symbols tasks. apply filter_2_check_dates_tasks.
Qed.

Lemma gap_detector_range_witness :
  gap_detector_rule (ymd2ord 2024 3 1) stored_until_jan_10 stored_symbol 1.
Proof.
  apply (gap_detector_range (ymd2ord 2024 3 1) stored_until_jan_10 stored_symbol 1).
  reflexivity.
Defined.

(** *** Symbol Selector *)

Lemma is_delisted_true info :
  is_delisted info = true <->
  si_status info <> Some "TRADING" \/ si_isSpotTradingAllowed info = Some false.
Proof.
  unfold is_delisted. repeat case_bool_decide; cbn; split; intros Hgoal;
    try reflexivity; try discriminate; tauto.
Qed.

Lemma build_candidates_acc infos liq : forall acc,
  build_candidates infos liq acc = acc ++ build_candidates infos liq [].
Proof.
  induction infos as [|info infos IH]; intros acc; cbn [build_candidates].
  - symmetry. apply app_nil_r.
  - repeat match goal with |- context [if ?b then _ else _] => destruct b end;
      try apply IH.
    rewrite (IH (acc ++ _)), (IH ([] ++ _)), <- !app_assoc. reflexivity.
Qed.

Lemma build_candidates_step info infos liq :
  build_candidates (info :: infos) liq [] =
  if decide (excluded liq info) then build_candidates infos liq []
  else normalize_symbol info liq :: build_candidates infos liq [].
Proof.
  cbn [build_candidates].
  destruct (is_delisted info) eqn:Hdel.
  { apply is_delisted_true in Hdel. rewrite decide_True; [reflexivity|].
    unfold excluded. tauto. }
  assert (Hlisted : ~ (si_status info <> Some "TRADING" \/
                       si_isSpotTradingAllowed info = Some false)).
  { rewrite <- is_delisted_true, Hdel. discriminate. }
  unfold has_unstable_quote. case_bool_decide as Hquote.
  { rewrite decide_True; [reflexivity|]. unfold excluded. tauto. }
  destruct (Qle_bool _ 0) eqn:Hliq.
  { apply Qle_bool_iff in Hliq. rewrite decide_True; [reflexivity|].
    unfold excluded. right. right. right. exact Hliq. }
  rewrite decide_False.
  - rewrite build_candidates_acc. reflexivity.
  - unfold excluded. intros [H|[H|[H|H]]]; try tauto.
    apply Qle_bool_iff in H. cbn in Hliq. congruence.
Qed.

(** C9.  Whatever the liquidity map, in particular the one built from the
    24h statistics: the candidates are, in the order of the metadata answer,
    the instruments that are not excluded, where an instrument is excluded
    exactly when its status is not TRADING, or its spot-trading flag is
    false, or its quote asset is not a stable quote, or its liquidity is at
    most 0; a candidate carries the liquidity the map has for its ticker, 0
    when the map has none. *)
Theorem build_candidates_filters (infos : list symbol_info)
    (liquidity_map : gmap string Q) :
  build_candidates infos liquidity_map [] =
  map (fun info => normalize_symbol info liquidity_map)
    (filter (fun info => ~ excluded liquidity_map info) infos) /\
  forall info,
    sym_symbol (normalize_symbol info liquidity_map) = si_symbol info /\
    sym_liquidity_metric (normalize_symbol info liquidity_map)
    = default 0%Q (liquidity_map !! si_symbol info).
Proof.
  split; [|intros info; split; reflexivity].
  induction infos as [|info infos IH]; [reflexivity|].
  rewrite build_candidates_step, filter_cons.
  destruct (decide (excluded liquidity_map info)) as [Hex|Hex].
  - rewrite decide_False by tauto. exact IH.
  - rewrite decide_True by exact Hex. cbn [map]. rewrite IH. reflexivity.
Qed.

Lemma insert_desc_perm x l : insert_desc x l ≡ₚ x :: l.
Proof.
  induction l as [|y l IH]; cbn [insert_desc]; [reflexivity|].
  destruct (Qle_bool _ _); [reflexivity|].
  rewrite IH. apply Permutation_swap.
Qed.

Lemma insert_desc_sorted x l :
  StronglySorted by_liquidity_desc l ->
  StronglySorted by_liquidity_desc (insert_desc x l).
Proof.
  induction l as [|y l IH]; intros Hsorted; cbn [insert_desc].
  - repeat constructor.
  - apply StronglySorted_cons in Hsorted as [Hy Hl].
    destruct (Qle_bool _ _) eqn:Hle.
    + apply Qle_bool_iff in Hle.
      apply StronglySorted_cons. split.
      * constructor; [exact Hle|].
        eapply Forall_impl; [exact Hy|]. intros z Hz.
        unfold by_liquidity_desc in *. eapply Qle_trans; eassumption.
      * apply StronglySorted_cons. split; assumption.
    + assert (Hxy : by_liquidity_desc y x).
      { unfold by_liquidity_desc.
        destruct (Qlt_le_dec (sym_liquidity_metric x) (sym_liquidity_metric y))
          as [Hlt|Hge]; [apply Qlt_le_weak; exact Hlt|].
        apply Qle_bool_iff in Hge. congruence. }
      apply StronglySorted_cons. split; [|apply IH; exact Hl].
      rewrite insert_desc_perm. constructor; assumption.
Qed.

Lemma sort_by_liquidity_perm l : sort_by_liquidity l ≡ₚ l.
Proof.
  induction l as [|x l IH]; [reflexivity|].
  cbn [sort_by_liquidity foldr]. rewrite insert_desc_perm.
  constructor. exact IH.
Qed.

Lemma sort_by_liquidity_sorted l :
  StronglySorted by_liquidity_desc (sort_by_liquidity l).
Proof.
  induction l as [|x l IH]; [constructor|].
  cbn [sort_by_liquidity foldr]. apply insert_desc_sorted. exact IH.
Qed.

Lemma py_slice_to_nonneg {A : Type} (n : Z) (l : list A) :
  0 <= n -> py_slice_to n l = take (Z.to_nat n) l.
Proof.
  intros Hn. unfold py_slice_to.
  destruct (Z.leb_spec 0 n); [reflexivity | lia].
Qed.

Lemma select_after_upsert symbol base quote fresh tbl :
  is_Some (Db.select_by_symbol symbol
             (Db.upsert_symbol symbol base quote fresh tbl)).
Proof.
  unfold Db.select_by_symbol.
  induction tbl as [|r tbl IH]; cbn [Db.upsert_symbol].
  - cbn. rewrite String.eqb_refl. eauto.
  - destruct (String.eqb (c_symbol r) symbol) eqn:Heq; cbn [find c_symbol].
    + rewrite String.eqb_refl. eauto.
    + rewrite Heq. exact IH.
Qed.

Lemma upsert_top_emits top : forall cur stored,
  exists cur' out,
    upsert_top top cur stored = Done (cur', stored ++ out) /\
    Forall2 resolved top out.
Proof.
  induction top as [|s top IH]; intros cur stored; cbn [upsert_top].
  - exists cur, []. rewrite app_nil_r. split; [reflexivity | constructor].
  - destruct (select_after_upsert (sym_symbol s) (sym_base_asset s)
                (sym_quote_asset s) (Db.next_id cur) cur) as [row Hrow].
    rewrite Hrow.
    destruct (IH (Db.upsert_symbol (sym_symbol s) (sym_base_asset s)
                    (sym_quote_asset s) (Db.next_id cur) cur)
                (stored ++ [Sym (sym_symbol s) (sym_base_asset s)
                              (sym_quote_asset s) (sym_liquidity_metric s)
                              (Some (c_id row))]))
      as (cur' & out & Hrun & Hout).
    exists cur', (Sym (sym_symbol s) (sym_base_asset s) (sym_quote_asset s)
                    (sym_liquidity_metric s) (Some (c_id row)) :: out).
    rewrite Hrun, <- app_assoc. split; [reflexivity|].
    constructor; [|exact Hout].
    unfold resolved. cbn. repeat split; eauto.
Qed.

Section SelectorFacts.

Variable float : string -> option Q.

Lemma filter_1_emits_top infos tickers n tbl :
  exists tbl' out,
    filter_1_get_symbols float (ApiOk infos) (ApiOk tickers) (Some n) tbl
    = (tbl', Done out) /\
    Forall2 resolved (top_active float infos tickers n) out.
Proof.
  unfold filter_1_get_symbols.
  change (default Config.TOP_N_SYMBOLS (Some n)) with n.
  destruct (top_active float infos tickers n) as [|s top] eqn:Htop.
  - exists tbl, []. split; [reflexivity | constructor].
  - destruct (upsert_top_emits (s :: top) (Db.clear_active tbl) [])
      as (cur' & out & Hrun & Hout).
    rewrite Hrun. exists cur', out. split; [reflexivity | exact Hout].
Qed.

(** C7.  With a budget [n >= 0], the selected symbols are the first [n] of
    a list that holds the surviving candidates in descending order of
    liquidity; no candidate left out has a greater liquidity than a selected
    one; the run yields exactly the selected symbols, in that order, with
    their identities.  On candidates of liquidity 100, 50 and 100 and a
    budget of 2 the run yields the two candidates of liquidity 100. *)
Theorem selector_ranking (infos : list symbol_info) (tickers : list ticker)
    (n : Z) (tbl : list crypto_row) :
  0 <= n ->
  ranked_selection float infos tickers n tbl /\ ranking_example.
Proof.
  intros Hn. split; [|vm_compute; reflexivity].
  unfold ranked_selection. cbn zeta.
  exists (sort_by_liquidity
            (build_candidates infos (build_liquidity_map float tickers) [])).
  split; [apply sort_by_liquidity_perm|].
  split; [apply sort_by_liquidity_sorted|].
  assert (Htop : top_active float infos tickers n =
                 take (Z.to_nat n)
                   (sort_by_liquidity
                      (build_candidates infos
                         (build_liquidity_map float tickers) []))).
  { unfold top_active. apply py_slice_to_nonneg. exact Hn. }
  split; [exact Htop|]. split; [|apply filter_1_emits_top].
  intros a b Ha Hb. rewrite Htop in Ha.
  eapply StronglySorted_app_1_elem_of; [|exact Ha|exact Hb].
  rewrite take_drop. apply sort_by_liquidity_sorted.
Qed.

(** C3.  When the metadata call fails, and when the 24h-statistics call
    fails after the metadata call succeeded, the selector raises and the
    stored table is the one it started with. *)
Theorem selector_api_failure_no_write (max_symbols : option Z)
    (tbl : list crypto_row) :
  (forall tickers_resp,
     filter_1_get_symbols float ApiFail tickers_resp max_symbols tbl
     = (tbl, Raised)) /\
  (forall infos,
     filter_1_get_symbols float (ApiOk infos) ApiFail max_symbols tbl
     = (tbl, Raised)).
Proof. split; intros; reflexivity. Qed.

(** C8.  When no instrument survives the filtering, the selector yields no
    symbol and the stored table is the one it started with. *)
Theorem selector_no_candidates_no_write (infos : list symbol_info)
    (tickers : list ticker) (max_symbols : option Z) (tbl : list crypto_row) :
  build_candidates infos (build_liquidity_map float tickers) [] = [] ->
  filter_1_get_symbols float (ApiOk infos) (ApiOk tickers) max_symbols tbl
  = (tbl, Done []).
Proof.
  intros Hnone. unfold filter_1_get_symbols, top_active. rewrite Hnone.
  unfold py_slice_to. cbn [sort_by_liquidity foldr].
  destruct (0 <=? default Config.TOP_N_SYMBOLS max_symbols);
    rewrite take_nil; reflexivity.
Qed.

End SelectorFacts.

Lemma selector_ranking_witness :
  ranked_selection volume_float three_infos three_tickers 2 one_active /\
  ranking_example.
Proof.
  apply (selector_ranking volume_float three_infos three_tickers 2 one_active).
  lia.
Defined.

Lemma selector_no_candidates_no_write_witness :
  filter_1_get_symbols volume_float (ApiOk halted_infos) (ApiOk three_tickers)
    None one_active
  = (one_active, Done []).
Proof.
  apply (selector_no_candidates_no_write volume_float halted_infos
           three_tickers None one_active).
  vm_compute. reflexivity.
Defined.

(** *** More on the market-data client *)

Lemma date_of_ms_offset (d off : Z) :
  0 <= off < MS_PER_DAY -> date_of_ms (date_to_ms d + off) = d.
Proof.
  intros Hoff. unfold date_of_ms, date_to_ms.
  rewrite Z.div_add_l by (unfold MS_PER_DAY; lia).
  rewrite Z.div_small by exact Hoff. lia.
Qed.

(** X1.  The two date conversions agree: every millisecond timestamp of the
    UTC day [d], from its midnight [date_to_ms d] on, is read back as the
    date [d]. *)
Theorem date_of_ms_date_to_ms (d off : Z) :
  0 <= off < MS_PER_DAY ->
  date_of_ms (date_to_ms d) = d /\ date_of_ms (date_to_ms d + off) = d.
Proof.
  intros Hoff. split; [|apply date_of_ms_offset; exact Hoff].
  rewrite <- (Z.add_0_r (date_to_ms d)). apply date_of_ms_offset.
  unfold MS_PER_DAY. lia.
Qed.

Lemma date_of_ms_date_to_ms_witness :
  date_of_ms (date_to_ms (ymd2ord 2024 1 10)) = ymd2ord 2024 1 10 /\
  date_of_ms (date_to_ms (ymd2ord 2024 1 10) + 3600000) = ymd2ord 2024 1 10.
Proof.
  apply (date_of_ms_date_to_ms (ymd2ord 2024 1 10) 3600000).
  unfold MS_PER_DAY. lia.
Defined.

Section FetchFacts.

Variable api : klines_api.
Variable sym : string.
Variables start_date end_date : Z.

Lemma answered_by_widen calls calls0 calls' k :
  (calls <= calls0)%nat ->
  answered_by api sym end_date calls0 calls' k ->
  answered_by api sym end_date calls calls' k.
Proof.
  intros Hle (i & s & chunk & Hi & Hpage & Hin).
  exists i, s, chunk. split; [lia|]. split; assumption.
Qed.

Lemma fetch_klines_loop_sound : forall fuel calls cur acc klines calls',
  fetch_klines_loop api fuel sym start_date end_date calls cur acc
  = Done (klines, calls') ->
  (calls <= calls')%nat /\
  exists rest, klines = acc ++ rest /\
    forall k, k ∈ rest -> answered_by api sym end_date calls calls' k.
Proof.
  induction fuel as [|fuel IH]; intros calls cur acc klines calls' Hrun;
    [discriminate|].
  cbn [fetch_klines_loop] in Hrun.
  destruct (cur <=? end_date).
  2:{ injection Hrun as <- <-. split; [lia|]. exists [].
      rewrite app_nil_r. split; [reflexivity|]. intros k Hk. inversion Hk. }
  destruct (api calls sym (date_to_ms cur) (date_to_ms end_date))
    as [|[|k0 chunk]] eqn:Hpage; try discriminate.
  - injection Hrun as <- <-. split; [lia|]. exists [].
    rewrite app_nil_r. split; [reflexivity|]. intros k Hk. inversion Hk.
  - cbn zeta in Hrun.
    assert (Hchunk : forall calls', (S calls <= calls')%nat ->
              forall k, k ∈ k0 :: chunk ->
                answered_by api sym end_date calls calls' k).
    { intros c Hc k Hk. exists calls, (date_to_ms cur), (k0 :: chunk).
      split; [lia|]. split; assumption. }
    destruct (_ <=? start_date).
    + injection Hrun as <- <-. split; [lia|]. exists (k0 :: chunk).
      split; [reflexivity|]. apply Hchunk. lia.
    + apply IH in Hrun as (Hle & rest & -> & Hrest).
      split; [lia|]. exists ((k0 :: chunk) ++ rest).
      split; [rewrite app_assoc; reflexivity|].
      intros k Hk. apply elem_of_app in Hk as [Hk|Hk].
      * apply Hchunk; [lia | exact Hk].
      * apply (answered_by_widen calls (S calls)); [lia|]. apply Hrest, Hk.
Qed.

(** Requests made against an endpoint whose pages advance: at most one per
    day of what is left of the range. *)
Lemma fetch_klines_loop_requests :
  progressing api sym end_date ->
  forall fuel calls cur acc klines calls',
    fetch_klines_loop api fuel sym start_date end_date calls cur acc
    = Done (klines, calls') ->
    (calls' <= calls + Z.to_nat (end_date - cur + 1))%nat.
Proof.
  intros Hprog.
  induction fuel as [|fuel IH]; intros calls cur acc klines calls' Hrun;
    [discriminate|].
  cbn [fetch_klines_loop] in Hrun.
  destruct (Z.leb_spec cur end_date) as [Hle|Hgt].
  2:{ injection Hrun as <- <-. lia. }
  destruct (api calls sym (date_to_ms cur) (date_to_ms end_date))
    as [|[|k0 chunk]] eqn:Hpage; try discriminate.
  - injection Hrun as <- <-. lia.
  - cbn zeta in Hrun.
    destruct (last (k0 :: chunk)) as [k|] eqn:Hlast.
    2:{ apply last_None in Hlast. discriminate. }
    pose proof (Hprog _ _ _ _ Hpage Hlast) as Hk. unfold kline_date in Hk.
    cbn [default from_option id] in Hrun.
    destruct (_ <=? start_date).
    + injection Hrun as <- <-. lia.
    + apply IH in Hrun. lia.
Qed.

(** X2.  Whatever the endpoint does, the klines a fetch returns are klines
    the endpoint sent in answer to the requests of this fetch, for this
    ticker and this end of window; the request counter never goes back. *)
Theorem fetch_klines_range_sound (fuel calls : nat) (klines : list kline)
    (calls' : nat) :
  fetch_klines_range api fuel calls sym start_date end_date
  = Done (klines, calls') ->
  (calls <= calls')%nat /\
  forall k, k ∈ klines -> answered_by api sym end_date calls calls' k.
Proof.
  unfold fetch_klines_range. intros Hrun.
  apply fetch_klines_loop_sound in Hrun as (Hle & rest & -> & Hrest).
  split; [exact Hle | exact Hrest].
Qed.

(** X3.  Against an endpoint whose non-empty pages never end before the
    start of the requested window, a fetch with more fuel than the range has
    days does not run out of fuel, and a fetch that returns has made at most
    one request per day of the range. *)
Theorem fetch_klines_range_progress :
  progressing api sym end_date ->
  (forall fuel calls,
     (Z.to_nat (end_date - start_date + 1) < fuel)%nat ->
     fetch_klines_range api fuel calls sym start_date end_date <> OutOfFuel) /\
  (forall fuel calls klines calls',
     fetch_klines_range api fuel calls sym start_date end_date
     = Done (klines, calls') ->
     (calls' <= calls + Z.to_nat (end_date - start_date + 1))%nat).
Proof.
  intros Hprog. split.
  - intros fuel calls Hfuel. unfold fetch_klines_range.
    apply fetch_klines_loop_returns; assumption.
  - intros fuel calls klines calls' Hrun.
    apply (fetch_klines_loop_requests Hprog _ _ _ _ _ _ Hrun).
Qed.

End FetchFacts.

Lemma daily_api_progressing sym end_date : progressing daily_api sym end_date.
Proof.
  intros calls cur chunk k Hpage Hlast. unfold daily_api in Hpage.
  destruct (_ <=? _); injection Hpage as <-; [|discriminate].
  injection Hlast as <-. unfold kline_date. cbn [k_open_time_ms].
  rewrite <- (Z.add_0_r (date_to_ms cur)), date_of_ms_offset; [lia|].
  unfold MS_PER_DAY. lia.
Qed.

Lemma fetch_klines_range_sound_witness :
  (0 <= 2)%nat /\
  forall k,
    k ∈ [Kline (date_to_ms (EPOCH_ORDINAL + 1)) "1" "1" "1" "2" "1"] ->
    answered_by late_api "BTCUSDT" (EPOCH_ORDINAL + 2) 0 2 k.
Proof.
  apply (fetch_klines_range_sound late_api "BTCUSDT" EPOCH_ORDINAL
           (EPOCH_ORDINAL + 2) 10 0).
  vm_compute. reflexivity.
Defined.

Lemma fetch_klines_range_progress_witness :
  (forall fuel calls,
     (Z.to_nat (EPOCH_ORDINAL + 2 - EPOCH_ORDINAL + 1) < fuel)%nat ->
     fetch_klines_range daily_api fuel calls "BTCUSDT" EPOCH_ORDINAL
       (EPOCH_ORDINAL + 2) <> OutOfFuel) /\
  (forall fuel calls klines calls',
     fetch_klines_range daily_api fuel calls "BTCUSDT" EPOCH_ORDINAL
       (EPOCH_ORDINAL + 2) = Done (klines, calls') ->
     (calls' <= calls + Z.to_nat (EPOCH_ORDINAL + 2 - EPOCH_ORDINAL + 1))%nat).
Proof.
  apply (fetch_klines_range_progress daily_api "BTCUSDT" EPOCH_ORDINAL
           (EPOCH_ORDINAL + 2)).
  apply daily_api_progressing.
Defined.

(** *** More on the gap fill *)

Section FillShape.

Variable sid : Z.
Variable rows : gmap Z daily_row.
Hypothesis rows_keyed : keyed_by_date sid rows.

Lemma fill_loop_known_dates n : forall cur c,
  map row_date (fill_loop sid rows n cur (Some c) []) = seqZ cur (Z.of_nat n).
Proof using rows_keyed.
  induction n as [|n IH]; intros cur c; [reflexivity|].
  rewrite fill_loop_step, seqZ_cons by lia.
  replace (Z.pred (Z.of_nat (S n))) with (Z.of_nat n) by lia.
  replace (Z.succ cur) with (cur + 1) by lia.
  destruct (rows !! cur) as [r|] eqn:Hcur; cbn [map].
  - destruct (rows_keyed _ _ Hcur) as [-> _]. rewrite IH. reflexivity.
  - rewrite IH. reflexivity.
Qed.

Lemma fill_loop_skip k : forall cur n,
  (forall d0, cur <= d0 < cur + Z.of_nat k -> rows !! d0 = None) ->
  fill_loop sid rows (k + n) cur None []
  = fill_loop sid rows n (cur + Z.of_nat k) None [].
Proof.
  induction k as [|k IH]; intros cur n Hnone.
  - cbn [Nat.add]. f_equal. lia.
  - cbn [Nat.add]. rewrite fill_loop_step, Hnone by lia.
    rewrite IH by (intros d0 Hd0; apply Hnone; lia).
    f_equal. lia.
Qed.

Lemma fill_loop_increasing n : forall cur pc,
  date_increasing (fill_loop sid rows n cur pc []).
Proof using rows_keyed.
  unfold date_increasing.
  induction n as [|n IH]; intros cur pc; [constructor|].
  rewrite fill_loop_step.
  assert (Htail : forall pc' r, r ∈ fill_loop sid rows n (cur + 1) pc' [] ->
                    cur < row_date r).
  { intros pc' r Hin. apply (fill_loop_dates sid rows rows_keyed) in Hin. lia. }
  destruct (rows !! cur) as [r|] eqn:Hcur; [|destruct pc as [c|]].
  - apply StronglySorted_cons. split; [|apply IH].
    apply Forall_forall. intros r' Hin.
    destruct (rows_keyed _ _ Hcur) as [-> _]. eapply Htail, Hin.
  - apply StronglySorted_cons. split; [|apply IH].
    apply Forall_forall. intros r' Hin. cbn. eapply Htail, Hin.
  - apply IH.
Qed.

Lemma fill_missing_dates_from_first start_date end_date f :
  start_date <= f <= end_date ->
  is_Some (rows !! f) ->
  (forall d0, start_date <= d0 < f -> rows !! d0 = None) ->
  map row_date (fill_missing_dates sid start_date end_date rows)
  = seqZ f (end_date - f + 1).
Proof using rows_keyed.
  intros Hf [r Hr] Hnone. unfold fill_missing_dates.
  replace (Z.to_nat (end_date - start_date + 1))
    with (Z.to_nat (f - start_date) + S (Z.to_nat (end_date - f)))%nat by lia.
  rewrite fill_loop_skip by (intros d0 Hd0; apply Hnone; lia).
  replace (start_date + Z.of_nat (Z.to_nat (f - start_date))) with f by lia.
  rewrite fill_loop_step, Hr. cbn [map].
  destruct (rows_keyed _ _ Hr) as [-> _].
  rewrite fill_loop_known_dates, (seqZ_cons f) by lia.
  f_equal. f_equal; lia.
Qed.

Lemma fill_missing_dates_none start_date end_date :
  (forall d0, start_date <= d0 <= end_date -> rows !! d0 = None) ->
  fill_missing_dates sid start_date end_date rows = [].
Proof.
  intros Hnone. unfold fill_missing_dates.
  rewrite <- (Nat.add_0_r (Z.to_nat _)).
  rewrite fill_loop_skip by (intros d0 Hd0; apply Hnone; lia).
  reflexivity.
Qed.

End FillShape.

Section FillerExtras.

Variable float : string -> option Q.

(** X4.  When [f] is the first date of [start .. end] that has a normalized
    bar, the rows to store are dated [f], [f + 1], ..., [end], one row per
    date in this order, all for the task's symbol. *)
Theorem fill_missing_dates_contiguous (sid : Z) (klines : list kline)
    (rows : gmap Z daily_row) (start_date end_date f : Z) :
  normalize_klines float sid klines = Done rows ->
  start_date <= f <= end_date ->
  is_Some (rows !! f) ->
  (forall d0, start_date <= d0 < f -> rows !! d0 = None) ->
  map row_date (fill_missing_dates sid start_date end_date rows)
  = seqZ f (end_date - f + 1) /\
  Forall (fun r => row_symbol_id r = sid)
    (fill_missing_dates sid start_date end_date rows).
Proof.
  intros Hnorm Hf Hsome Hnone.
  pose proof (normalize_klines_keyed _ _ _ _ Hnorm) as Hkeyed.
  split.
  - apply (fill_missing_dates_from_first sid rows Hkeyed); assumption.
  - apply Forall_forall. intros r Hin.
    apply (fill_loop_dates sid rows Hkeyed) in Hin. tauto.
Qed.

Lemma kline_row_raised sid k :
  kline_row float sid k = Raised <-> malformed float k.
Proof.
  unfold kline_row, malformed.
  destruct (float (k_open k)), (float (k_high k)), (float (k_low k)),
    (float (k_close k)), (float (k_volume k));
    split; intros H; try reflexivity; try discriminate;
    try (repeat destruct H as [H|H]; discriminate); tauto.
Qed.

Lemma normalize_loop_raises sid klines : forall m,
  (exists k, k ∈ klines /\ malformed float k) ->
  normalize_loop float sid klines m = Raised.
Proof.
  induction klines as [|k klines IH]; intros m (bad & Hin & Hbad).
  - inversion Hin.
  - cbn [normalize_loop]. unfold mbind, outcome_bind.
    destruct (kline_row float sid k) as [r| |] eqn:Hrow; [|reflexivity|].
    + apply elem_of_cons in Hin as [->|Hin].
      * apply (kline_row_raised sid) in Hbad. congruence.
      * apply IH. eauto.
    + unfold kline_row in Hrow.
      destruct (float (k_open k)), (float (k_high k)), (float (k_low k)),
        (float (k_close k)), (float (k_volume k)); discriminate.
Qed.

Variable api : klines_api.

(** X5.  A task whose fetch brings no candle dated inside [start .. end]
    completes without writing: the table is the one it started with. *)
Theorem fill_task_no_candle_no_write (fuel : nat) (t : task) (calls : nat)
    (tbl : list daily_row) (klines : list kline) (calls' : nat)
    (rows : gmap Z daily_row) :
  fetch_klines_range api fuel calls (task_symbol t)
    (task_start_date t) (task_end_date t) = Done (klines, calls') ->
  normalize_klines float (task_symbol_id t) klines = Done rows ->
  (forall k, k ∈ klines ->
     ~ task_start_date t <= kline_date k <= task_end_date t) ->
  fill_task float api fuel t calls tbl = (tbl, Done calls').
Proof.
  intros Hfetch Hnorm Hout. unfold fill_task. rewrite Hfetch, Hnorm.
  rewrite fill_missing_dates_none; [reflexivity|].
  intros d0 Hd0. apply eq_None_not_Some. intros Hsome.
  apply (normalize_klines_dom float _ _ _ _ Hnorm) in Hsome as (k & Hin & Hk).
  apply (Hout k Hin). lia.
Qed.

(** X6.  A task whose fetch brings a kline with a numeric text that does
    not parse raises, and the table is the one it started with. *)
Theorem fill_task_malformed_kline_no_write (fuel : nat) (t : task)
    (calls : nat) (tbl : list daily_row) (klines : list kline) (calls' : nat) :
  fetch_klines_range api fuel calls (task_symbol t)
    (task_start_date t) (task_end_date t) = Done (klines, calls') ->
  (exists k, k ∈ klines /\ malformed float k) ->
  fill_task float api fuel t calls tbl = (tbl, Raised).
Proof.
  intros Hfetch Hbad. unfold fill_task, normalize_klines.
  rewrite Hfetch, (normalize_loop_raises _ _ _ Hbad). reflexivity.
Qed.

End FillerExtras.

Lemma fill_missing_dates_contiguous_witness :
  exists rows,
    normalize_klines digit_float 1
      [Kline (date_to_ms (EPOCH_ORDINAL + 1)) "1" "1" "1" "2" "1"] = Done rows /\
    map row_date (fill_missing_dates 1 EPOCH_ORDINAL (EPOCH_ORDINAL + 3) rows)
    = seqZ (EPOCH_ORDINAL + 1) (EPOCH_ORDINAL + 3 - (EPOCH_ORDINAL + 1) + 1) /\
    Forall (fun r => row_symbol_id r = 1)
      (fill_missing_dates 1 EPOCH_ORDINAL (EPOCH_ORDINAL + 3) rows).
Proof.
  eexists. split; [vm_compute; reflexivity|].
  apply (fill_missing_dates_contiguous digit_float 1
           [Kline (date_to_ms (EPOCH_ORDINAL + 1)) "1" "1" "1" "2" "1"]).
  - vm_compute. reflexivity.
  - unfold EPOCH_ORDINAL. lia.
  - vm_compute. eauto.
  - intros d0 Hd0. replace d0 with EPOCH_ORDINAL by lia. vm_compute. reflexivity.
Defined.

Lemma fill_task_no_candle_no_write_witness :
  fill_task digit_float silent_api 10 early_task 0 [other_row]
  = ([other_row], Done 1%nat).
Proof.
  apply (fill_task_no_candle_no_write digit_float silent_api 10 early_task 0
           [other_row] [] 1 ∅).
  - vm_compute. reflexivity.
  - reflexivity.
  - intros k Hk. inversion Hk.
Defined.

Lemma fill_task_malformed_kline_no_write_witness :
  fill_task digit_float broken_api 10 early_task 0 [other_row]
  = ([other_row], Raised).
Proof.
  apply (fill_task_malformed_kline_no_write digit_float broken_api 10
           early_task 0 [other_row] [broken_candle] 2).
  - vm_compute. reflexivity.
  - exists broken_candle. split; [left|].
    right. right. right. left. vm_compute. reflexivity.
Defined.

(** *** Re-running a task *)

Lemma same_key_false r r' :
  Db.same_key r r' = false <->
  ~ (row_symbol_id r = row_symbol_id r' /\ row_date r = row_date r').
Proof.
  rewrite <- same_key_spec. destruct (Db.same_key r r'); split; intros H;
    try reflexivity; try discriminate; try (exfalso; apply H; reflexivity).
Qed.

Lemma upsert_daily_fixed r tbl :
  find (Db.same_key r) tbl = Some r -> Db.upsert_daily r tbl = tbl.
Proof.
  induction tbl as [|r' tbl IH]; cbn [find Db.upsert_daily]; [discriminate|].
  destruct (Db.same_key r r'); [intros [= ->]; reflexivity|].
  intros H. rewrite IH by exact H. reflexivity.
Qed.

Lemma find_upsert_daily_same r tbl :
  find (Db.same_key r) (Db.upsert_daily r tbl) = Some r.
Proof.
  assert (Hrefl : Db.same_key r r = true) by (apply same_key_spec; tauto).
  induction tbl as [|r' tbl IH]; cbn [Db.upsert_daily find].
  - rewrite Hrefl. reflexivity.
  - destruct (Db.same_key r r') eqn:Hkey; cbn [find].
    + rewrite Hrefl. reflexivity.
    + rewrite Hkey. exact IH.
Qed.

Lemma find_upsert_daily_other r r0 tbl :
  Db.same_key r r0 = false ->
  find (Db.same_key r) (Db.upsert_daily r0 tbl) = find (Db.same_key r) tbl.
Proof.
  intros Hne.
  induction tbl as [|r' tbl IH]; cbn [Db.upsert_daily find].
  - rewrite Hne. reflexivity.
  - destruct (Db.same_key r0 r') eqn:Hkey; cbn [find].
    + rewrite Hne.
      assert (Hr' : Db.same_key r r' = false).
      { apply same_key_false. apply same_key_false in Hne.
        apply same_key_spec in Hkey. intros [? ?]. apply Hne.
        split; lia. }
      rewrite Hr'. reflexivity.
    + destruct (Db.same_key r r'); [reflexivity | exact IH].
Qed.

Lemma executemany_daily_finds rows : forall tbl r,
  date_increasing rows ->
  (forall r1 r2, r1 ∈ rows -> r2 ∈ rows -> row_symbol_id r1 = row_symbol_id r2) ->
  r ∈ rows ->
  find (Db.same_key r) (Db.executemany_daily rows tbl) = Some r.
Proof.
  unfold Db.executemany_daily, date_increasing.
  induction rows as [|r0 rows IH]; intros tbl r Hinc Hsid Hin; [inversion Hin|].
  apply StronglySorted_cons in Hinc as [Hlater Hinc].
  cbn [fold_left].
  assert (Hsid' : forall r1 r2, r1 ∈ rows -> r2 ∈ rows ->
                    row_symbol_id r1 = row_symbol_id r2).
  { intros r1 r2 H1 H2. apply Hsid; right; assumption. }
  apply elem_of_cons in Hin as [->|Hin]; [|apply IH; assumption].
  clear IH. revert tbl.
  induction rows as [|r1 rows IH]; intros tbl; cbn [fold_left].
  - apply find_upsert_daily_same.
  - apply Forall_cons in Hlater as [Hr1 Hlater].
    apply StronglySorted_cons in Hinc as [_ Hinc].
    assert (Hne : Db.same_key r0 r1 = false).
    { apply same_key_false. intros [_ ?]. lia. }
    specialize (IH Hlater Hinc).
    assert (Hgen : forall tbl0,
      find (Db.same_key r0) tbl0 = Some r0 ->
      find (Db.same_key r0)
        (fold_left (fun t r => Db.upsert_daily r t) rows tbl0) = Some r0).
    { clear -Hlater. revert Hlater.
      induction rows as [|r2 rows IH2]; intros Hlater tbl0 Hfind; [exact Hfind|].
      apply Forall_cons in Hlater as [Hr2 Hlater]. cbn [fold_left].
      apply IH2; [exact Hlater|].
      rewrite find_upsert_daily_other; [exact Hfind|].
      apply same_key_false. intros [_ ?]. lia. }
    apply Hgen.
    rewrite find_upsert_daily_other by exact Hne.
    apply find_upsert_daily_same.
Qed.

Lemma executemany_daily_fixed rows : forall tbl,
  (forall r, r ∈ rows -> find (Db.same_key r) tbl = Some r) ->
  Db.executemany_daily rows tbl = tbl.
Proof.
  unfold Db.executemany_daily.
  induction rows as [|r rows IH]; intros tbl Hfind; [reflexivity|].
  cbn [fold_left]. rewrite upsert_daily_fixed by (apply Hfind; left).
  apply IH. intros r' Hr'. apply Hfind. right. exact Hr'.
Qed.

Lemma elem_of_upsert_daily r r0 tbl :
  r ∈ Db.upsert_daily r0 tbl -> r = r0 \/ r ∈ tbl.
Proof.
  induction tbl as [|r' tbl IH]; cbn [Db.upsert_daily].
  - intros Hin. apply elem_of_cons in Hin as [->|Hin]; [left; reflexivity|].
    inversion Hin.
  - destruct (Db.same_key r0 r').
    + intros Hin. apply elem_of_cons in Hin as [->|Hin];
        [left; reflexivity | right; right; exact Hin].
    + intros Hin. apply elem_of_cons in Hin as [->|Hin]; [right; left|].
      destruct (IH Hin) as [->|Hin']; [left; reflexivity | right; right; exact Hin'].
Qed.

Lemma elem_of_executemany_daily rows : forall tbl r,
  r ∈ Db.executemany_daily rows tbl -> r ∈ rows \/ r ∈ tbl.
Proof.
  unfold Db.executemany_daily.
  induction rows as [|r0 rows IH]; intros tbl r Hin; [right; exact Hin|].
  cbn [fold_left] in Hin. apply IH in Hin as [Hin|Hin].
  - left. right. exact Hin.
  - apply elem_of_upsert_daily in Hin as [->|Hin]; [left; left | right; exact Hin].
Qed.

Section RerunFacts.

Variable float : string -> option Q.

(** X7.  Running a task again on the table it left, with a fetch that
    brings the same klines, changes nothing: the second run completes and
    the table is the one the first run left. *)
Theorem fill_task_rerun_same_table (api api' : klines_api) (fuel fuel' : nat)
    (t : task) (calls calls1 calls' calls2 : nat) (tbl tbl1 : list daily_row)
    (klines : list kline) :
  fill_task float api fuel t calls tbl = (tbl1, Done calls1) ->
  fetch_klines_range api fuel calls (task_symbol t)
    (task_start_date t) (task_end_date t) = Done (klines, calls1) ->
  fetch_klines_range api' fuel' calls' (task_symbol t)
    (task_start_date t) (task_end_date t) = Done (klines, calls2) ->
  fill_task float api' fuel' t calls' tbl1 = (tbl1, Done calls2).
Proof.
  intros Hrun Hfetch Hfetch'.
  apply fill_task_done in Hrun as (klines0 & rows & Hfetch0 & Hnorm & ->).
  rewrite Hfetch in Hfetch0. injection Hfetch0 as <-.
  pose proof (normalize_klines_keyed _ _ _ _ Hnorm) as Hkeyed.
  unfold fill_task. rewrite Hfetch', Hnorm.
  set (filled := fill_missing_dates (task_symbol_id t) (task_start_date t)
                   (task_end_date t) rows).
  assert (Hfixed : Db.executemany_daily filled (Db.executemany_daily filled tbl)
                   = Db.executemany_daily filled tbl).
  { apply executemany_daily_fixed. intros r Hin.
    apply executemany_daily_finds; [| |exact Hin].
    - apply (fill_loop_increasing _ _ Hkeyed).
    - intros r1 r2 H1 H2.
      apply (fill_loop_dates _ _ Hkeyed) in H1, H2. lia. }
  destruct filled as [|r filled]; [reflexivity|].
  rewrite Hfixed. reflexivity.
Qed.

(** X8.  After a task that completes with at least one candle dated inside
    [start .. end], on a table that held no later date for the symbol, the
    Gap Detector run on the day [end] yields no task for the symbol. *)
Theorem detector_quiet_after_fill (api : klines_api) (fuel : nat) (t : task)
    (calls calls' : nat) (tbl tbl' : list daily_row) (klines : list kline)
    (s : sym) :
  fill_task float api fuel t calls tbl = (tbl', Done calls') ->
  fetch_klines_range api fuel calls (task_symbol t)
    (task_start_date t) (task_end_date t) = Done (klines, calls') ->
  (exists k, k ∈ klines /\
     task_start_date t <= kline_date k <= task_end_date t) ->
  (forall r, r ∈ tbl -> row_symbol_id r = task_symbol_id t ->
     row_date r <= task_end_date t) ->
  sym_symbol_id s = Some (task_symbol_id t) ->
  check_dates_step (task_end_date t) tbl' s = Done None.
Proof.
  intros Hrun Hfetch (k & Hk & Hrange) Hold Hsid.
  apply fill_task_done in Hrun as (klines0 & rows & Hfetch0 & Hnorm & ->).
  rewrite Hfetch in Hfetch0. injection Hfetch0 as <-.
  pose proof (normalize_klines_keyed _ _ _ _ Hnorm) as Hkeyed.
  set (filled := fill_missing_dates (task_symbol_id t) (task_start_date t)
                   (task_end_date t) rows).
  assert (Hmax : max_stored_date (task_symbol_id t)
                   (Db.executemany_daily filled tbl) (task_end_date t)).
  { split.
    - destruct (fill_missing_dates_count (task_symbol_id t) rows
                  (task_start_date t) (task_end_date t) (task_end_date t)
                  Hkeyed ltac:(lia)) as [Hone _].
      assert (Hcount : Db.count_rows (task_symbol_id t) (task_end_date t)
                         (Db.executemany_daily filled tbl) <> 0%nat).
      { rewrite count_rows_executemany. fold filled in Hone. rewrite Hone; [lia|].
        exists (kline_date k). split; [lia|].
        apply (normalize_klines_dom float _ _ _ _ Hnorm). eauto. }
      unfold Db.count_rows in Hcount.
      destruct (filter _ (Db.executemany_daily filled tbl)) as [|r rest] eqn:Hf;
        [contradiction|].
      assert (Hin : r ∈ filter (fun r => row_symbol_id r = task_symbol_id t /\
                                  row_date r = task_end_date t)
                           (Db.executemany_daily filled tbl)).
      { rewrite Hf. left. }
      apply list_elem_of_filter in Hin as [[? ?] Hin]. exists r. tauto.
    - intros r Hin Hr. apply elem_of_executemany_daily in Hin as [Hin|Hin].
      + apply (fill_loop_dates _ _ Hkeyed) in Hin. lia.
      + apply Hold; assumption. }
  unfold check_dates_step.
  rewrite Hsid, (select_last_date_Some _ _ _ Hmax).
  destruct (Z.leb_spec (task_end_date t + 1) (task_end_date t)); [lia|reflexivity].
Qed.

End RerunFacts.

Lemma fill_task_rerun_same_table_witness :
  fill_task digit_float late_api 10 early_task 0
    (fill_task digit_float late_api 10 early_task 0 [other_row]).1
  = ((fill_task digit_float late_api 10 early_task 0 [other_row]).1, Done 2%nat).
Proof.
  apply (fill_task_rerun_same_table digit_float late_api late_api 10 10
           early_task 0 2 0 2 [other_row] _
           [Kline (date_to_ms (EPOCH_ORDINAL + 1)) "1" "1" "1" "2" "1"]).
  - vm_compute. reflexivity.
  - vm_compute. reflexivity.
  - vm_compute. reflexivity.
Defined.

Lemma detector_quiet_after_fill_witness :
  check_dates_step (task_end_date early_task)
    (fill_task digit_float late_api 10 early_task 0 [other_row]).1
    stored_symbol
  = Done None.
Proof.
  apply (detector_quiet_after_fill digit_float late_api 10 early_task 0 2
           [other_row] _
           [Kline (date_to_ms (EPOCH_ORDINAL + 1)) "1" "1" "1" "2" "1"]).
  - vm_compute. reflexivity.
  - vm_compute. reflexivity.
  - eexists. split; [left|]. vm_compute. split; discriminate.
  - intros r Hr. apply elem_of_cons in Hr as [->|Hr]; [|inversion Hr].
    vm_compute. discriminate.
  - reflexivity.
Defined.

(** *** More on the Symbol Selector *)

Section SelectorExtras.

Variable float : string -> option Q.

Lemma build_liquidity_map_fold tickers s : forall liq : gmap string Q,
  fold_left (fun (liq : gmap string Q) t =>
               <[t_symbol t := quote_volume float t]> liq) tickers liq
    !! s
  = match last (filter (fun t => t_symbol t = s) tickers) with
    | Some t => Some (quote_volume float t)
    | None => liq !! s
    end.
Proof.
  induction tickers as [|t tickers IH]; intros liq; [reflexivity|].
  cbn [fold_left]. rewrite IH, filter_cons.
  destruct (decide (t_symbol t = s)) as [Hs|Hs].
  - rewrite last_cons.
    destruct (last (filter _ tickers)); [reflexivity|].
    rewrite Hs. apply lookup_insert_eq.
  - destruct (last (filter _ tickers)); [reflexivity|].
    apply lookup_insert_ne. exact Hs.
Qed.

(** X9.  The liquidity map holds, for a ticker symbol, the volume of the
    last 24h-statistics object with that symbol, and nothing for a symbol no
    object has. *)
Theorem build_liquidity_map_last_wins (tickers : list ticker) (s : string) :
  build_liquidity_map float tickers !! s
  = quote_volume float <$> last (filter (fun t => t_symbol t = s) tickers).
Proof.
  unfold build_liquidity_map. rewrite build_liquidity_map_fold.
  destruct (last _); [reflexivity | apply lookup_empty].
Qed.

Lemma build_candidates_elem infos liq c :
  c ∈ build_candidates infos liq [] ->
  exists info, info ∈ infos /\ c = normalize_symbol info liq /\
    ~ excluded liq info.
Proof.
  induction infos as [|info infos IH]; [intros Hin; inversion Hin|].
  rewrite build_candidates_step.
  destruct (decide (excluded liq info)) as [Hex|Hex].
  - intros Hin. destruct (IH Hin) as (i & Hi & Hc & Hne).
    exists i. split; [right; exact Hi | tauto].
  - intros Hin. apply elem_of_cons in Hin as [->|Hin].
    + exists info. split; [left | tauto].
    + destruct (IH Hin) as (i & Hi & Hc & Hne).
      exists i. split; [right; exact Hi | tauto].
Qed.

Lemma build_candidates_length infos liq :
  (length (build_candidates infos liq []) <= length infos)%nat.
Proof.
  induction infos as [|info infos IH]; [reflexivity|].
  rewrite build_candidates_step.
  destruct (decide _); cbn [length]; lia.
Qed.

(** X10.  An instrument for which the 24h statistics give no usable volume
    (no object, or a last object whose volume is missing or does not parse)
    is never a candidate. *)
Theorem unpriced_symbol_never_candidate (infos : list symbol_info)
    (tickers : list ticker) (s : string) :
  unpriced float tickers s ->
  forall c, c ∈ build_candidates infos (build_liquidity_map float tickers) [] ->
    sym_symbol c <> s.
Proof.
  intros Hun c Hin Hs.
  apply build_candidates_elem in Hin as (info & _ & -> & Hne).
  cbn [normalize_symbol sym_symbol] in Hs. apply Hne.
  right. right. right. unfold build_liquidity_map.
  rewrite Hs, build_liquidity_map_fold, lookup_empty.
  unfold unpriced in Hun.
  destruct (last (filter _ tickers)) as [t|]; cbn; [|apply Qle_refl].
  unfold quote_volume.
  destruct Hun as [->|(text & -> & ->)]; apply Qle_refl.
Qed.

Lemma filter_1_done infos tickers max_symbols tbl tbl' out :
  filter_1_get_symbols float (ApiOk infos) (ApiOk tickers) max_symbols tbl
  = (tbl', Done out) ->
  Forall2 resolved
    (top_active float infos tickers (default Config.TOP_N_SYMBOLS max_symbols))
    out.
Proof.
  unfold filter_1_get_symbols.
  destruct (top_active float infos tickers _) as [|s top] eqn:Htop.
  - intros [= <- <-]. constructor.
  - destruct (upsert_top_emits (s :: top) (Db.clear_active tbl) [])
      as (cur' & out0 & Hrun & Hout).
    rewrite Hrun. intros [= <- <-]. exact Hout.
Qed.

Lemma py_slice_to_sublist {A : Type} (n : Z) (l : list A) :
  py_slice_to n l `sublist_of` l.
Proof. unfold py_slice_to. destruct (0 <=? n); apply sublist_take. Qed.

Lemma top_active_elem infos tickers n c :
  c ∈ top_active float infos tickers n ->
  c ∈ build_candidates infos (build_liquidity_map float tickers) [].
Proof.
  unfold top_active. intros Hin.
  rewrite <- (sort_by_liquidity_perm (build_candidates _ _ _)).
  eapply sublist_subseteq; [apply py_slice_to_sublist | exact Hin].
Qed.

(** X11.  Every symbol the selector yields has a positive liquidity, a quote
    asset of the allow-list and a resolved identity, and is the ticker of an
    instrument of the metadata answer that is TRADING and whose spot-trading
    flag is not false; the selector yields no more symbols than the answer
    has instruments. *)
Theorem selector_yields_eligible (infos : list symbol_info)
    (tickers : list ticker) (max_symbols : option Z)
    (tbl tbl' : list crypto_row) (out : list sym) :
  filter_1_get_symbols float (ApiOk infos) (ApiOk tickers) max_symbols tbl
  = (tbl', Done out) ->
  Forall (eligible infos) out /\ (length out <= length infos)%nat.
Proof.
  intros Hrun. apply filter_1_done in Hrun.
  set (top := top_active float infos tickers _) in Hrun.
  split.
  - apply Forall_forall. intros o Ho.
    apply list_elem_of_lookup in Ho as [i Ho].
    destruct (Forall2_lookup_r _ _ _ _ _ Hrun Ho) as (s & Hs & Hres).
    apply list_elem_of_lookup_2 in Hs.
    apply top_active_elem, build_candidates_elem in Hs as (info & Hin & -> & Hne).
    destruct Hres as (Hsym & _ & Hquote & Hliq & Hid).
    cbn in Hsym, Hquote, Hliq. unfold eligible, excluded in *.
    rewrite Hliq, Hquote. split; [|split; [|split; [exact Hid|]]].
    + apply Qnot_le_lt. tauto.
    + destruct (decide (si_quoteAsset info ∈ Config.STABLE_QUOTES)); tauto.
    + exists info. split; [exact Hin|]. split; [symmetry; exact Hsym|].
      destruct (decide (si_status info = Some "TRADING")); tauto.
  - rewrite <- (Forall2_length _ _ _ Hrun). unfold top, top_active.
    etransitivity; [apply sublist_length, py_slice_to_sublist|].
    rewrite (Permutation_length (sort_by_liquidity_perm _)).
    apply build_candidates_length.
Qed.

End SelectorExtras.

Lemma insert_desc_filter (q : Q) x l :
  filter (fun s => (sym_liquidity_metric s == q)%Q) (insert_desc x l)
  = filter (fun s => (sym_liquidity_metric s == q)%Q) (x :: l).
Proof.
  induction l as [|y l IH]; cbn [insert_desc]; [reflexivity|].
  destruct (Qle_bool _ _) eqn:Hle; [reflexivity|].
  assert (Hlt : ~ (sym_liquidity_metric y <= sym_liquidity_metric x)%Q).
  { rewrite <- Qle_bool_iff, Hle. discriminate. }
  rewrite (filter_cons _ y), IH, (filter_cons _ x (y :: l)),
    (filter_cons _ x l), (filter_cons _ y l).
  destruct (decide (sym_liquidity_metric y == q)%Q) as [Hy|Hy];
    destruct (decide (sym_liquidity_metric x == q)%Q) as [Hx|Hx];
    try reflexivity.
  exfalso. apply Hlt. rewrite Hy, Hx. apply Qle_refl.
Qed.

(** X12.  Ranking keeps ties in input order: for every liquidity value, the
    candidates with that value come in the ranked list in the order they
    had before the sort. *)
Theorem sort_by_liquidity_stable (q : Q) (l : list sym) :
  filter (fun s => (sym_liquidity_metric s == q)%Q) (sort_by_liquidity l)
  = filter (fun s => (sym_liquidity_metric s == q)%Q) l.
Proof.
  induction l as [|x l IH]; [reflexivity|].
  cbn [sort_by_liquidity foldr]. rewrite insert_desc_filter.
  fold (sort_by_liquidity l). rewrite !filter_cons, IH. reflexivity.
Qed.

Lemma unpriced_symbol_never_candidate_witness :
  unpriced volume_float garbled_tickers "AAAUSDT" /\
  (forall c,
     c ∈ build_candidates three_infos
           (build_liquidity_map volume_float garbled_tickers) [] ->
     sym_symbol c <> "AAAUSDT").
Proof.
  assert (Hun : unpriced volume_float garbled_tickers "AAAUSDT").
  { vm_compute. right. eexists. split; reflexivity. }
  split; [exact Hun|].
  apply (unpriced_symbol_never_candidate volume_float three_infos
           garbled_tickers "AAAUSDT").
  exact Hun.
Defined.

Lemma selector_yields_eligible_witness :
  Forall (eligible three_infos)
    [Sym "AAAUSDT" "AAA" "USDT" 100 (Some 2);
     Sym "CCCUSDT" "CCC" "USDT" 100 (Some 3)] /\
  (2 <= 3)%nat.
Proof.
  apply (selector_yields_eligible volume_float three_infos three_tickers
           (Some 2) one_active
           [CryptoRow 1 "BTCUSDT" "BTC" "USDT" false;
            CryptoRow 2 "AAAUSDT" "AAA" "USDT" true;
            CryptoRow 3 "CCCUSDT" "CCC" "USDT" true]).
  vm_compute. reflexivity.
Defined.

(** *** The cryptocurrencies table *)

Lemma elem_of_upsert_symbol s b q f tbl r :
  r ∈ Db.upsert_symbol s b q f tbl -> c_symbol r = s \/ r ∈ tbl.
Proof.
  induction tbl as [|x tbl IH]; cbn [Db.upsert_symbol].
  - intros Hin. apply elem_of_cons in Hin as [->|Hin]; [left; reflexivity|].
    inversion Hin.
  - destruct (String.eqb (c_symbol x) s).
    + intros Hin. apply elem_of_cons in Hin as [->|Hin];
        [left; reflexivity | right; right; exact Hin].
    + intros Hin. apply elem_of_cons in Hin as [->|Hin]; [right; left|].
      destruct (IH Hin) as [?|?]; [left; assumption | right; right; assumption].
Qed.

Lemma count_active_cons r tbl :
  count_active (r :: tbl)
  = ((if decide (c_is_active r = true) then 1 else 0) + count_active tbl)%nat.
Proof.
  unfold count_active. rewrite filter_cons. destruct (decide _); reflexivity.
Qed.

Lemma count_active_upsert_symbol s b q f tbl :
  (count_active (Db.upsert_symbol s b q f tbl) <= S (count_active tbl))%nat.
Proof.
  induction tbl as [|x tbl IH]; cbn [Db.upsert_symbol].
  - rewrite count_active_cons. destruct (decide _); cbn; lia.
  - destruct (String.eqb (c_symbol x) s); rewrite !count_active_cons.
    + repeat destruct (decide _); lia.
    + destruct (decide _); lia.
Qed.

Lemma count_active_clear tbl : count_active (Db.clear_active tbl) = 0%nat.
Proof.
  induction tbl as [|x tbl IH]; [reflexivity|].
  cbn [Db.clear_active map]. rewrite count_active_cons.
  destruct (decide _) as [Hact|]; [discriminate Hact | exact IH].
Qed.

Lemma clear_active_inactive tbl r :
  r ∈ Db.clear_active tbl -> c_is_active r = false.
Proof.
  unfold Db.clear_active. intros Hin.
  apply list_elem_of_fmap in Hin as (x & -> & _). reflexivity.
Qed.

Lemma select_upsert_symbol_same s b q f tbl :
  exists row,
    Db.select_by_symbol s (Db.upsert_symbol s b q f tbl) = Some row /\
    c_is_active row = true.
Proof.
  unfold Db.select_by_symbol.
  induction tbl as [|x tbl IH]; cbn [Db.upsert_symbol].
  - cbn. rewrite String.eqb_refl. eauto.
  - destruct (String.eqb (c_symbol x) s) eqn:Heq; cbn [find c_symbol].
    + rewrite String.eqb_refl. eauto.
    + rewrite Heq. exact IH.
Qed.

Lemma select_upsert_symbol_kept s0 s b q f tbl r :
  Db.select_by_symbol s0 tbl = Some r -> c_is_active r = true ->
  exists r', Db.select_by_symbol s0 (Db.upsert_symbol s b q f tbl) = Some r' /\
    c_id r' = c_id r /\ c_is_active r' = true.
Proof.
  unfold Db.select_by_symbol.
  induction tbl as [|x tbl IH]; cbn [Db.upsert_symbol find]; [discriminate|].
  destruct (String.eqb (c_symbol x) s) eqn:Hs; cbn [find c_symbol].
  - apply String.eqb_eq in Hs. rewrite Hs.
    destruct (String.eqb s s0).
    + intros [= <-] _. eauto.
    + intros Hfind Hact. eauto.
  - destruct (String.eqb (c_symbol x) s0).
    + intros [= <-] Hact. eauto.
    + exact IH.
Qed.

Lemma upsert_top_cons s top cur stored cur' out' :
  upsert_top (s :: top) cur stored = Done (cur', out') ->
  exists row,
    Db.select_by_symbol (sym_symbol s)
      (Db.upsert_symbol (sym_symbol s) (sym_base_asset s) (sym_quote_asset s)
         (Db.next_id cur) cur) = Some row /\
    c_is_active row = true /\
    upsert_top top
      (Db.upsert_symbol (sym_symbol s) (sym_base_asset s) (sym_quote_asset s)
         (Db.next_id cur) cur)
      (stored ++ [Sym (sym_symbol s) (sym_base_asset s) (sym_quote_asset s)
                    (sym_liquidity_metric s) (Some (c_id row))])
    = Done (cur', out').
Proof.
  cbn [upsert_top].
  destruct (select_upsert_symbol_same (sym_symbol s) (sym_base_asset s)
              (sym_quote_asset s) (Db.next_id cur) cur) as (row & Hrow & Hact).
  rewrite Hrow. intros Hrun. exists row. tauto.
Qed.

Lemma upsert_top_active top : forall cur stored cur' out' r,
  upsert_top top cur stored = Done (cur', out') ->
  r ∈ cur' ->
  r ∈ cur \/ exists s, s ∈ top /\ sym_symbol s = c_symbol r.
Proof.
  induction top as [|s top IH]; intros cur stored cur' out' r Hrun Hin.
  - cbn in Hrun. injection Hrun as <- <-. left. exact Hin.
  - apply upsert_top_cons in Hrun as (row & _ & _ & Hrun).
    destruct (IH _ _ _ _ _ Hrun Hin) as [Hr|(s' & Hs' & Hsym)].
    + apply elem_of_upsert_symbol in Hr as [Hr|Hr]; [|left; exact Hr].
      right. exists s. split; [left | congruence].
    + right. exists s'. split; [right; exact Hs' | exact Hsym].
Qed.

Lemma upsert_top_count top : forall cur stored cur' out',
  upsert_top top cur stored = Done (cur', out') ->
  (count_active cur' <= count_active cur + length top)%nat.
Proof.
  induction top as [|s top IH]; intros cur stored cur' out' Hrun.
  - cbn in Hrun. injection Hrun as <- <-. lia.
  - apply upsert_top_cons in Hrun as (row & _ & _ & Hrun).
    apply IH in Hrun.
    pose proof (count_active_upsert_symbol (sym_symbol s) (sym_base_asset s)
                  (sym_quote_asset s) (Db.next_id cur) cur).
    cbn [length]. lia.
Qed.

Lemma upsert_top_kept top : forall cur stored cur' out' s0 r,
  upsert_top top cur stored = Done (cur', out') ->
  Db.select_by_symbol s0 cur = Some r -> c_is_active r = true ->
  exists r', Db.select_by_symbol s0 cur' = Some r' /\
    c_id r' = c_id r /\ c_is_active r' = true.
Proof.
  induction top as [|s top IH]; intros cur stored cur' out' s0 r Hrun Hsel Hact.
  - cbn in Hrun. injection Hrun as <- <-. eauto.
  - apply upsert_top_cons in Hrun as (row & _ & _ & Hrun).
    destruct (select_upsert_symbol_kept s0 (sym_symbol s) (sym_base_asset s)
                (sym_quote_asset s) (Db.next_id cur) cur r Hsel Hact)
      as (r1 & Hsel1 & Hid1 & Hact1).
    destruct (IH _ _ _ _ _ _ Hrun Hsel1 Hact1) as (r' & Hsel' & Hid' & Hact').
    exists r'. split; [exact Hsel'|]. split; [congruence | exact Hact'].
Qed.

Lemma upsert_top_ids top : forall cur stored cur' out',
  upsert_top top cur stored = Done (cur', out') ->
  exists out, out' = stored ++ out /\
    forall o, o ∈ out ->
      exists r, Db.select_by_symbol (sym_symbol o) cur' = Some r /\
        c_is_active r = true /\ sym_symbol_id o = Some (c_id r).
Proof.
  induction top as [|s top IH]; intros cur stored cur' out' Hrun.
  - cbn in Hrun. injection Hrun as <- <-. exists []. rewrite app_nil_r.
    split; [reflexivity|]. intros o Ho. inversion Ho.
  - apply upsert_top_cons in Hrun as (row & Hrow & Hact & Hrun).
    destruct (IH _ _ _ _ Hrun) as (out & -> & Hout).
    eexists (_ :: out). split; [rewrite <- app_assoc; reflexivity|].
    intros o Ho. apply elem_of_cons in Ho as [->|Ho]; [|apply Hout, Ho].
    destruct (upsert_top_kept _ _ _ _ _ _ _ Hrun Hrow Hact)
      as (r' & Hsel' & Hid' & Hact').
    exists r'. cbn [sym_symbol sym_symbol_id].
    split; [exact Hsel'|]. split; [exact Hact' | congruence].
Qed.

Section ActiveSet.

Variable float : string -> option Q.

(** X13.  After a selector run that yields at least one symbol: every
    active row of the table is the row of a yielded ticker; every yielded
    symbol has an active row under its ticker and carries that row's
    identity; there are no more active rows than yielded symbols, hence no
    more than a budget [n >= 0]. *)
Theorem selector_replaces_active_set (infos : list symbol_info)
    (tickers : list ticker) (max_symbols : option Z)
    (tbl tbl' : list crypto_row) (out : list sym) :
  filter_1_get_symbols float (ApiOk infos) (ApiOk tickers) max_symbols tbl
  = (tbl', Done out) ->
  out <> [] ->
  active_set_replaced max_symbols tbl' out.
Proof.
  intros Hrun Hout.
  pose proof (filter_1_done float _ _ _ _ _ _ Hrun) as Hres.
  unfold filter_1_get_symbols in Hrun.
  set (top := top_active float infos tickers _) in *.
  destruct top as [|s top'] eqn:Htop.
  { injection Hrun as <- <-. contradiction. }
  destruct (upsert_top (s :: top') (Db.clear_active tbl) [])
    as [[cur stored]| |] eqn:Hup; try discriminate.
  injection Hrun as <- <-.
  destruct (upsert_top_ids _ _ _ _ _ Hup) as (out & Hstored & Hids).
  cbn [app] in Hstored. subst out.
  assert (Hcount : (count_active cur <= length stored)%nat).
  { pose proof (upsert_top_count _ _ _ _ _ Hup) as Hc.
    rewrite count_active_clear in Hc.
    rewrite <- (Forall2_length _ _ _ Hres). exact Hc. }
  split; [|split; [exact Hids|split; [exact Hcount|]]].
  - intros r Hin Hact.
    destruct (upsert_top_active _ _ _ _ _ _ Hup Hin) as [Hold|(s' & Hs' & Hsym)].
    + apply clear_active_inactive in Hold. congruence.
    + apply list_elem_of_lookup in Hs' as [i Hi].
      destruct (Forall2_lookup_l _ _ _ _ _ Hres Hi) as (o & Ho & Hro).
      exists o. split; [eapply list_elem_of_lookup_2; exact Ho|].
      destruct Hro as [-> _]. exact Hsym.
  - intros n -> Hn. etransitivity; [exact Hcount|].
    rewrite <- (Forall2_length _ _ _ Hres), <- Htop. unfold top, top_active.
    cbn [default from_option id]. rewrite py_slice_to_nonneg by exact Hn.
    rewrite length_take. lia.
Qed.

Lemma filter_2_check_dates_total clock tbl symbols : forall i,
  Forall (fun s => is_Some (sym_symbol_id s)) symbols ->
  exists tasks,
    filter_2_check_dates clock i symbols tbl = Done tasks /\
    Forall (task_of symbols) tasks.
Proof.
  induction symbols as [|s symbols IH]; intros i Hids.
  - exists []. split; [reflexivity | constructor].
  - apply Forall_cons in Hids as [[sid Hsid] Hids].
    destruct (IH (S i) Hids) as (tasks & Hrun & Htasks).
    assert (Hweak : Forall (task_of (s :: symbols)) tasks).
    { eapply Forall_impl; [exact Htasks|].
      intros t (s' & Hs' & Hrest). exists s'. split; [right; exact Hs' | exact Hrest]. }
    cbn [filter_2_check_dates]. unfold check_dates_step. rewrite Hsid.
    destruct (Db.select_last_date sid tbl) as [d|];
      match goal with |- context [if ?b then _ else _] => destruct b end;
      cbn; rewrite Hrun; cbn; eexists; (split; [reflexivity|]);
      try exact Hweak;
      (constructor; [|exact Hweak]);
      (exists s; split; [left | split; [exact Hsid | reflexivity]]).
Qed.

(** X14.  The Gap Detector never fails on what the Symbol Selector yields:
    run on the yielded symbols it returns a list of tasks, each made for one
    of these symbols, with that symbol's identity and ticker. *)
Theorem detector_accepts_selector_output (infos : list symbol_info)
    (tickers : list ticker) (max_symbols : option Z)
    (tbl tbl' : list crypto_row) (symbols : list sym)
    (clock : nat -> Z) (i : nat) (daily : list daily_row) :
  filter_1_get_symbols float (ApiOk infos) (ApiOk tickers) max_symbols tbl
  = (tbl', Done symbols) ->
  exists tasks,
    filter_2_check_dates clock i symbols daily = Done tasks /\
    Forall (task_of symbols) tasks.
Proof.
  intros Hrun. apply filter_2_check_dates_total.
  apply filter_1_done in Hrun. apply Forall_forall. intros o Ho.
  apply list_elem_of_lookup in Ho as [j Hj].
  destruct (Forall2_lookup_r _ _ _ _ _ Hrun Hj) as (s & _ & Hres).
  apply Hres.
Qed.

End ActiveSet.

Lemma selector_replaces_active_set_witness :
  active_set_replaced (Some 2) table_after_selection selected_symbols.
Proof.
  apply (selector_replaces_active_set volume_float three_infos three_tickers
           (Some 2) one_active).
  - vm_compute. reflexivity.
  - discriminate.
Defined.

Lemma detector_accepts_selector_output_witness :
  exists tasks,
    filter_2_check_dates (fun _ => ymd2ord 2024 3 1) 0 selected_symbols
      stored_until_jan_10 = Done tasks /\
    Forall (task_of selected_symbols) tasks.
Proof.
  apply (detector_accepts_selector_output volume_float three_infos
           three_tickers (Some 2) one_active table_after_selection).
  vm_compute. reflexivity.
Defined.

(** *** What the History Filler and the pipeline leave untouched *)

Section FrameFacts.

Variable float : string -> option Q.
Variable api : klines_api.

Lemma fill_task_frame fuel t calls tbl r :
  r ∈ (fill_task float api fuel t calls tbl).1 ->
  written_for [t] tbl r.
Proof.
  unfold fill_task, written_for.
  destruct (fetch_klines_range _ _ _ _ _ _) as [[klines c]| |];
    [|left; assumption|left; assumption].
  destruct (normalize_klines _ _ _) as [rows| |] eqn:Hnorm;
    [|left; assumption|left; assumption].
  pose proof (normalize_klines_keyed _ _ _ _ Hnorm) as Hkeyed.
  assert (Hin : r ∈ Db.executemany_daily
                      (fill_missing_dates (task_symbol_id t)
                         (task_start_date t) (task_end_date t) rows) tbl ->
                r ∈ tbl \/
                exists t0, t0 ∈ [t] /\ row_symbol_id r = task_symbol_id t0 /\
                  task_start_date t0 <= row_date r <= task_end_date t0).
  { intros Hin. apply elem_of_executemany_daily in Hin as [Hin|Hin];
      [|left; exact Hin].
    right. exists t. split; [left|].
    apply (fill_loop_dates _ _ Hkeyed) in Hin. lia. }
  destruct (fill_missing_dates _ _ _ rows) as [|r0 filled];
    [left; assumption | exact Hin].
Qed.

(** X15.  Whatever its outcome, a run of the History Filler only adds or
    overwrites rows of the symbols of its tasks, dated inside the range of
    one of these tasks: every row of the table it leaves was there before or
    is such a row. *)
Theorem filter_3_fill_data_frame (fuel : nat) (tasks : list task)
    (calls : nat) (tbl : list daily_row) (r : daily_row) :
  r ∈ (filter_3_fill_data float api fuel tasks calls tbl).1 ->
  written_for tasks tbl r.
Proof.
  revert calls tbl.
  induction tasks as [|t tasks IH]; intros calls tbl Hin; [left; exact Hin|].
  cbn [filter_3_fill_data] in Hin.
  pose proof (fill_task_frame fuel t calls tbl r) as Hone.
  destruct (fill_task float api fuel t calls tbl) as [tbl1 [c1| |]] eqn:Htask;
    cbn [fst] in Hone.
  - apply IH in Hin as [Hin|(t0 & Ht0 & Hrow)].
    + pose proof (fill_task_frame fuel t calls tbl r) as H1.
      rewrite Htask in H1. destruct (H1 Hin) as [?|(t0 & Ht0 & Hrow)];
        [left; assumption|].
      right. exists t0. split; [|exact Hrow].
      apply elem_of_cons in Ht0 as [->|Ht0]; [left | inversion Ht0].
    + right. exists t0. split; [right; exact Ht0 | exact Hrow].
  - destruct (Hone Hin) as [?|(t0 & Ht0 & Hrow)]; [left; assumption|].
    right. exists t0. split; [|exact Hrow].
    apply elem_of_cons in Ht0 as [->|Ht0]; [left | inversion Ht0].
  - destruct (Hone Hin) as [?|(t0 & Ht0 & Hrow)]; [left; assumption|].
    right. exists t0. split; [|exact Hrow].
    apply elem_of_cons in Ht0 as [->|Ht0]; [left | inversion Ht0].
Qed.

Lemma top_active_no_candidates infos tickers n :
  build_candidates infos (build_liquidity_map float tickers) [] = [] ->
  top_active float infos tickers n = [].
Proof.
  intros Hnone. unfold top_active, py_slice_to. rewrite Hnone.
  cbn [sort_by_liquidity foldr]. destruct (0 <=? n); apply take_nil.
Qed.

(** X16.  A pipeline run in which a market-data call of the selector fails
    raises and leaves both tables as they were; a run in which no
    instrument survives the selector's filtering completes without a single
    kline request and leaves both tables as they were. *)
Theorem run_pipeline_idle (fuel : nat) (clock : nat -> Z) (st : store) :
  (forall tickers_resp,
     run_pipeline float ApiFail tickers_resp api fuel clock st = (st, Raised)) /\
  (forall infos,
     run_pipeline float (ApiOk infos) ApiFail api fuel clock st = (st, Raised)) /\
  (forall infos tickers,
     build_candidates infos (build_liquidity_map float tickers) [] = [] ->
     run_pipeline float (ApiOk infos) (ApiOk tickers) api fuel clock st
     = (st, Done 0%nat)).
Proof.
  destruct st as [crypto daily].
  split; [intros; reflexivity|]. split; [intros; reflexivity|].
  intros infos tickers Hnone.
  unfold run_pipeline, filter_1_get_symbols.
  rewrite (top_active_no_candidates _ _ _ Hnone). reflexivity.
Qed.

End FrameFacts.

Lemma filter_3_fill_data_frame_witness :
  written_for [early_task] [other_row] other_row.
Proof.
  apply (filter_3_fill_data_frame digit_float late_api 10 [early_task] 0
           [other_row] other_row).
  vm_compute. left.
Defined.

Lemma run_pipeline_idle_witness :
  run_pipeline volume_float (ApiOk halted_infos) (ApiOk three_tickers)
    silent_api 10 (fun _ => ymd2ord 2024 3 1) small_store
  = (small_store, Done 0%nat).
Proof.
  apply (run_pipeline_idle volume_float silent_api 10
           (fun _ => ymd2ord 2024 3 1) small_store).
  vm_compute. reflexivity.
Defined.

Section BudgetFacts.

Variable float : string -> option Q.

(** X17.  The selector yields as many symbols as the slice
    [candidates[:max_symbols]] keeps of the candidates: with a budget
    [n >= 0] the smaller of [n] and the number of candidates (none for
    [n = 0]); with a negative budget all but the last [-n] of the ranking;
    with no budget given, [TOP_N_SYMBOLS] stands for [n]. *)
Theorem selector_yields_budget (infos : list symbol_info)
    (tickers : list ticker) (max_symbols : option Z)
    (tbl tbl' : list crypto_row) (out : list sym) :
  filter_1_get_symbols float (ApiOk infos) (ApiOk tickers) max_symbols tbl
  = (tbl', Done out) ->
  length out
  = kept_by_budget (default Config.TOP_N_SYMBOLS max_symbols)
      (length (build_candidates infos (build_liquidity_map float tickers) [])).
Proof.
  intros Hrun. apply filter_1_done in Hrun.
  rewrite <- (Forall2_length _ _ _ Hrun).
  unfold top_active, py_slice_to, kept_by_budget.
  rewrite <- (Permutation_length (sort_by_liquidity_perm
                (build_candidates infos (build_liquidity_map float tickers) []))).
  destruct (Z.leb_spec 0 (default Config.TOP_N_SYMBOLS max_symbols));
    rewrite length_take; lia.
Qed.

End BudgetFacts.

Lemma selector_yields_budget_witness :
  length selected_symbols
  = kept_by_budget (default Config.TOP_N_SYMBOLS (Some (-1)))
      (length (build_candidates three_infos
                 (build_liquidity_map volume_float three_tickers) [])).
Proof.
  apply (selector_yields_budget volume_float three_infos three_tickers
           (Some (-1)) one_active table_after_selection).
  vm_compute. reflexivity.
Defined.
